(** * sqlite2postgres: schema translation and row coercion

    A shallow embedding of [src/main.py] (with the configuration shape of
    [src/config.py]) and the properties its design specification states
    about it.

    Conventions of the embedding.
    - A Python [str] is a [string]; a character is a code point below 256.
      [str.lower] stays in that range.  [str.upper] does not: the micro
      sign and the y with diaeresis go above 255 and the sharp s becomes
      two letters, so its result is a list of code points.  On that range
      [re.IGNORECASE] relates an ASCII letter to its other case and to
      nothing else.
    - A Python [int] is a [Z]; a [float] is a finite dyadic number
      [m * 2^e], an infinity or a NaN.
    - A function that may raise returns [res]; the raised exception is
      kept by its class.
    - The source cursor is a record of query answers.  The queries whose
      text is built from a table or an index name (lines 23-39 and 162)
      are taken to answer; the query of line 50, built from a column
      name, answers or raises.
    - The console is an oracle: a [print] writes or raises.  [run] is the
      run on a console that writes the progress output of lines 140 and
      150-152; [sqlite_to_postgresql] takes any console.  The progress
      bars are left out.
    - The target connection is an oracle that accepts or rejects each
      call given the calls made so far.  What the program does to the
      target is recorded as a list of events. *)

From Stdlib Require Import Bool Ascii String List ZArith Lia DecimalString
  Permutation.
Import ListNotations.

Local Open Scope string_scope.
Local Open Scope list_scope.
Local Open Scope Z_scope.

Infix "+++" := String.append (right associativity, at level 60).

(** ** Characters and strings *)

Module Chars.

Definition in_range (lo hi c : ascii) : bool :=
  ((lo <=? c) && (c <=? hi))%char.

Definition is_upper (c : ascii) : bool := in_range "A" "Z" c.
Definition is_lower (c : ascii) : bool := in_range "a" "z" c.
Definition is_ascii_digit (c : ascii) : bool := in_range "0" "9" c.

(** The other case of an ASCII letter, as [re.IGNORECASE] folds it. *)
Definition upper_ascii (c : ascii) : ascii :=
  if is_lower c then ascii_of_N (N_of_ascii c - 32) else c.

Definition lower_ascii (c : ascii) : ascii :=
  if is_upper c then ascii_of_N (N_of_ascii c + 32) else c.

(** [str.lower] of a character: the ASCII capitals and the Latin-1
    capitals, 192 to 222 without the multiplication sign 215, move up
    by 32. *)
Definition lower_char (c : ascii) : ascii :=
  let n := N_of_ascii c in
  if is_upper c
     || ((192 <=? n)%N && (n <=? 222)%N && negb (n =? 215)%N)
  then ascii_of_N (n + 32)
  else c.

(** [str.upper] of a character, as code points: the ASCII small letters
    and the Latin-1 ones, 224 to 254 without the division sign 247, move
    down by 32; the micro sign 181 becomes the Greek capital mu, the
    sharp s 223 becomes [SS], the y with diaeresis 255 becomes its
    capital at 376. *)
Definition upper_char (c : ascii) : list N :=
  let n := N_of_ascii c in
  if is_lower c then [(n - 32)%N]
  else if (n =? 181)%N then [924%N]
  else if (n =? 223)%N then [83%N; 83%N]
  else if (n =? 255)%N then [376%N]
  else if (224 <=? n)%N && negb (n =? 247)%N then [(n - 32)%N]
  else [n].

End Chars.

Import Chars.

Fixpoint map_string (f : ascii -> ascii) (s : string) : string :=
  match s with
  | EmptyString => EmptyString
  | String c s' => String (f c) (map_string f s')
  end.

(** [str.lower], and [str.upper] as code points. *)
Definition lower (s : string) : string := map_string lower_char s.

Fixpoint upper (s : string) : list N :=
  match s with
  | EmptyString => []
  | String c s' => upper_char c ++ upper s'
  end.

(** The code points of a string, and equality of code point lists. *)
Fixpoint code_points (s : string) : list N :=
  match s with
  | EmptyString => []
  | String c s' => N_of_ascii c :: code_points s'
  end.

Fixpoint points_eqb (a b : list N) : bool :=
  match a, b with
  | [], [] => true
  | x :: a', y :: b' => (x =? y)%N && points_eqb a' b'
  | _, _ => false
  end.

Fixpoint all_chars (p : ascii -> bool) (s : string) : bool :=
  match s with
  | EmptyString => true
  | String c s' => p c && all_chars p s'
  end.

(** [sep.join(parts)]. *)
Fixpoint join (sep : string) (parts : list string) : string :=
  match parts with
  | [] => ""
  | [p] => p
  | p :: rest => p +++ sep +++ join sep rest
  end.

Fixpoint last_char (s : string) : option ascii :=
  match s with
  | EmptyString => None
  | String c EmptyString => Some c
  | String _ s' => last_char s'
  end.

(** [s.rstrip(chars)]: drop the longest suffix made of characters of
    [chars]. *)
Fixpoint rstrip (strip : ascii -> bool) (s : string) : string :=
  match s with
  | EmptyString => EmptyString
  | String c s' =>
      match rstrip strip s' with
      | EmptyString => if strip c then EmptyString else String c EmptyString
      | t => String c t
      end
  end.

Definition comma_or_space (c : ascii) : bool :=
  (c =? ",")%char || (c =? " ")%char.

(** ** Regular expressions, as [re.match] uses them

    Only the constructs the type table needs.  [ends ic r s] lists what
    is left of [s] after each way [r] can match a prefix of it, in the
    order a backtracking matcher tries them; [ic] is [re.IGNORECASE]. *)

Module Regex.

Inductive item : Type :=
| One (c : ascii)
| Span (lo hi : ascii).

Inductive regex : Type :=
| Eps
| Lit (c : ascii)
| Class (items : list item)
| Cat (r1 r2 : regex)
| Alt (r1 r2 : regex)
| Upto (n : nat) (r : regex)
| Star (r : regex).

Definition lit_matches (ic : bool) (c x : ascii) : bool :=
  if ic then (lower_ascii c =? lower_ascii x)%char else (c =? x)%char.

Definition item_has (x : ascii) (i : item) : bool :=
  match i with
  | One c => (c =? x)%char
  | Span lo hi => in_range lo hi x
  end.

Definition class_matches (ic : bool) (items : list item) (x : ascii) : bool :=
  if ic
  then existsb (item_has (lower_ascii x)) items
       || existsb (item_has (upper_ascii x)) items
  else existsb (item_has x) items.

Definition one_char (p : ascii -> bool) (s : string) : list string :=
  match s with
  | String x s' => if p x then [s'] else []
  | EmptyString => []
  end.

Fixpoint ends (ic : bool) (r : regex) : string -> list string :=
  match r with
  | Eps => fun s => [s]
  | Lit c => one_char (lit_matches ic c)
  | Class items => one_char (class_matches ic items)
  | Cat r1 r2 => fun s => flat_map (ends ic r2) (ends ic r1 s)
  | Alt r1 r2 => fun s => ends ic r1 s ++ ends ic r2 s
  | Upto n r1 =>
      (fix upto (k : nat) (s : string) : list string :=
         match k with
         | O => [s]
         | S k' => flat_map (upto k') (ends ic r1 s) ++ [s]
         end) n
  | Star r1 => fun s =>
      (fix loop (fuel : nat) (s : string) : list string :=
         match fuel with
         | O => [s]
         | S fuel' =>
             flat_map
               (fun s' =>
                  if (String.length s' <? String.length s)%nat
                  then loop fuel' s' else [])
               (ends ic r1 s) ++ [s]
         end) (String.length s) s
  end.

(** The word [w], one literal per character. *)
Fixpoint word (w : string) : regex :=
  match w with
  | EmptyString => Eps
  | String c w' => Cat (Lit c) (word w')
  end.

Definition nonempty {A} (l : list A) : bool :=
  match l with [] => false | _ :: _ => true end.

(** [re.match(pattern, s, flags)] as a truth value: a match object is
    truthy, [None] is not. *)
Definition re_match (r : regex) (s : string) (ignorecase : bool) : bool :=
  nonempty (ends ignorecase r s).

End Regex.

Import Regex.

(** ** TypeMapper: [convert_type] *)

Definition letters : regex := Class [Span "A" "Z"].
Definition alnums : regex := Class [Span "0" "9"; Span "A" "Z"].

(** The table of [convert_type], in the order the dict literal lists it:
    [[A-Z]{0,3}INT[0-9A-Z]*], [TEXT|STRING], [BLOB], [REAL], [NUMERIC],
    [BOOL], [FLOAT]. *)
Definition type_mapping : list (regex * string) :=
  [ (Cat (Cat (Upto 3 letters) (word "INT")) (Star alnums), "INTEGER");
    (Alt (word "TEXT") (word "STRING"), "TEXT");
    (word "BLOB", "BYTEA");
    (word "REAL", "DOUBLE PRECISION");
    (word "NUMERIC", "NUMERIC");
    (word "BOOL", "BOOLEAN");
    (word "FLOAT", "DOUBLE PRECISION") ].

Fixpoint first_match (table : list (regex * string)) (s : string)
  : option string :=
  match table with
  | [] => None
  | (pattern, pg_type) :: rest =>
      if re_match pattern s true then Some pg_type else first_match rest s
  end.

Definition convert_type (sqlite_type : string) : string :=
  match first_match type_mapping sqlite_type with
  | Some pg_type => pg_type
  | None => "TEXT"
  end.

(** *** The mapping as the specification words it *)

Definition is_letter (c : ascii) : bool :=
  in_range "A" "Z" c || in_range "a" "z" c.

Definition same_letter (a b : ascii) : bool :=
  (upper_ascii a =? upper_ascii b)%char.

(** [w] is a prefix of [s], letter case apart. *)
Fixpoint starts_with_ci (w s : string) : bool :=
  match w, s with
  | EmptyString, _ => true
  | String a w', String b s' => same_letter a b && starts_with_ci w' s'
  | String _ _, EmptyString => false
  end.

(** [s] begins with at most [k] letters followed by [w]. *)
Fixpoint letters_then (k : nat) (w s : string) : bool :=
  starts_with_ci w s
  || match k, s with
     | S k', String c s' => is_letter c && letters_then k' w s'
     | _, _ => false
     end.

Definition integer_pattern (s : string) : bool := letters_then 3 "INT" s.

Definition mapDeclaredType_spec (declaredType : string) : string :=
  if integer_pattern declaredType then "INTEGER"
  else if starts_with_ci "TEXT" declaredType
          || starts_with_ci "STRING" declaredType then "TEXT"
  else if starts_with_ci "BLOB" declaredType then "BYTEA"
  else if starts_with_ci "REAL" declaredType then "DOUBLE PRECISION"
  else if starts_with_ci "NUMERIC" declaredType then "NUMERIC"
  else if starts_with_ci "BOOL" declaredType then "BOOLEAN"
  else if starts_with_ci "FLOAT" declaredType then "DOUBLE PRECISION"
  else "TEXT".

(** ** Python values and the built-ins the coercion calls *)

Inductive exn : Type :=
| ValueError | TypeError | AttributeError | IndexError | OverflowError
| DatabaseError | OperationalError | MarkupError.

Inductive res (A : Type) : Type :=
| Ok (a : A)
| Raise (e : exn).
Arguments Ok {A} a.
Arguments Raise {A} e.

Definition res_map {A B} (f : A -> B) (r : res A) : res B :=
  match r with Ok a => Ok (f a) | Raise e => Raise e end.

(** A [float]: [Finite m e] is [m * 2^e]. *)
Inductive pyfloat : Type :=
| Finite (m e : Z)
| Infinity (negative : bool)
| NaN.

(** What a cell of a fetched row, or a configured default, can hold. *)
Inductive value : Type :=
| VNone
| VBool (b : bool)
| VInt (n : Z)
| VFloat (f : pyfloat)
| VText (s : string)
| VBytes (b : string).

Definition is_none (v : value) : bool :=
  match v with VNone => true | _ => false end.

(** A call on the target connection. *)
Inductive event : Type :=
| Execute (query : string) (vars : option (list value))
| Commit
| Rollback
| Close.

Module Py.

(** The white space [int] strips around a [str] and around a [bytes]
    object: the ASCII white space 9-13 and 32 and, in a [str], the next
    line and no-break space characters 133 and 160.  The separators
    28-31, white space for [str.isspace], are not stripped. *)
Definition is_space (c : ascii) : bool :=
  in_range "009" "013" c || (c =? " ")%char
  || (c =? "133")%char || (c =? "160")%char.

Definition is_space_bytes (c : ascii) : bool :=
  in_range "009" "013" c || (c =? " ")%char.

Fixpoint lstrip (strip : ascii -> bool) (s : string) : string :=
  match s with
  | String c s' => if strip c then lstrip strip s' else s
  | EmptyString => EmptyString
  end.

Definition strip (p : ascii -> bool) (s : string) : string :=
  lstrip p (rstrip p s).

Definition digit_value (c : ascii) : Z := Z.of_N (N_of_ascii c) - 48.

(** Decimal digits with single underscores between them; [after_digit]
    says whether the previous character was a digit. *)
Fixpoint digits (acc : Z) (after_digit : bool) (s : string) : option Z :=
  match s with
  | EmptyString => if after_digit then Some acc else None
  | String c s' =>
      if is_ascii_digit c then digits (10 * acc + digit_value c) true s'
      else if (c =? "_")%char
           then if after_digit then digits acc false s' else None
           else None
  end.

Definition signed_digits (s : string) : option Z :=
  match s with
  | String "-" s' => option_map Z.opp (digits 0 false s')
  | String "+" s' => digits 0 false s'
  | _ => digits 0 false s
  end.

(** The conversions between [int] and text stop at 4300 digits, the
    default of [sys.get_int_max_str_digits]: a longer text, or an
    integer that prints longer, raises [ValueError].  Signs, underscores
    and white space do not count. *)
Definition max_str_digits : N := 4300.

Fixpoint count_digits (s : string) : N :=
  match s with
  | EmptyString => 0
  | String c s' =>
      ((if is_ascii_digit c then 1 else 0) + count_digits s')%N
  end.

Definition limited_digits (s : string) : option Z :=
  if (max_str_digits <? count_digits s)%N then None else signed_digits s.

(** [int(s)] for a [str] and for a [bytes] object: surrounding white
    space, an optional sign, decimal digits. *)
Definition int_of_text (s : string) : option Z :=
  limited_digits (strip is_space s).

Definition int_of_bytes (b : string) : option Z :=
  limited_digits (strip is_space_bytes b).

(** [int(f)] for a float: towards zero. *)
Definition int_of_float (f : pyfloat) : res Z :=
  match f with
  | Finite m e =>
      Ok (if 0 <=? e then m * 2 ^ e else Z.quot m (2 ^ (- e)))
  | Infinity _ => Raise OverflowError
  | NaN => Raise ValueError
  end.

Definition of_option {A} (e : exn) (o : option A) : res A :=
  match o with Some a => Ok a | None => Raise e end.

(** [int(v)]. *)
Definition int (v : value) : res Z :=
  match v with
  | VNone => Raise TypeError
  | VBool b => Ok (if b then 1 else 0)
  | VInt n => Ok n
  | VFloat f => int_of_float f
  | VText s => of_option ValueError (int_of_text s)
  | VBytes b => of_option ValueError (int_of_bytes b)
  end.

(** [str.isdigit]: not empty, every character a digit.  Below 256 the
    digits are [0]-[9] and the superscripts two, three and one. *)
Definition is_digit_char (c : ascii) : bool :=
  is_ascii_digit c
  || (c =? "178")%char || (c =? "179")%char || (c =? "185")%char.

Definition nonempty_string (s : string) : bool :=
  match s with EmptyString => false | String _ _ => true end.

Definition isdigit (s : string) : bool :=
  nonempty_string s && all_chars is_digit_char s.

Definition bytes_isdigit (b : string) : bool :=
  nonempty_string b && all_chars is_ascii_digit b.

(** [abs(x) > bound] for a float [x] and an integer [bound]. *)
Definition float_magnitude_gt (f : pyfloat) (bound : Z) : bool :=
  match f with
  | Finite m e =>
      if 0 <=? e then bound <? Z.abs m * 2 ^ e
      else bound * 2 ^ (- e) <? Z.abs m
  | Infinity _ => true
  | NaN => false
  end.

(** [str(n)] for an integer. *)
Definition str_of_int (n : Z) : res string :=
  if Z.abs n <? 10 ^ Z.of_N max_str_digits
  then Ok (NilZero.string_of_int (Z.to_int n))
  else Raise ValueError.

(** What is taken from the run time as it comes: the conversions
    between floats and text, and the console.  [print_error h row e] is
    the outcome of the two [print] calls of lines 126-127, which write
    the row and the traceback of the exception [e] through the markup
    of the console, after the calls [h] on the target: [None] when both
    write, or the exception one of them raises. *)
Record Runtime : Type := {
  repr_float : pyfloat -> string;
  repr_bytes : string -> string;
  float_of_int : Z -> res pyfloat;
  float_of_text : string -> res pyfloat;
  float_of_bytes : string -> res pyfloat;
  print_error : list event -> list value -> exn -> option exn
}.

Section Conversions.
Variable rt : Runtime.

(** [str(v)]. *)
Definition str (v : value) : res string :=
  match v with
  | VNone => Ok "None"
  | VBool b => Ok (if b then "True" else "False")
  | VInt n => str_of_int n
  | VFloat f => Ok (repr_float rt f)
  | VText s => Ok s
  | VBytes b => Ok (repr_bytes rt b)
  end.

(** [float(v)]. *)
Definition float (v : value) : res pyfloat :=
  match v with
  | VNone => Raise TypeError
  | VBool b => Ok (Finite (if b then 1 else 0) 0)
  | VInt n => float_of_int rt n
  | VFloat f => Ok f
  | VText s => float_of_text rt s
  | VBytes b => float_of_bytes rt b
  end.

End Conversions.

End Py.

(** ** The source store

    A row of [PRAGMA table_info]: [(cid, name, type, notnull, dflt_value,
    pk)]; of [PRAGMA index_list]: [(seq, name, unique, origin, partial)];
    of [PRAGMA index_info]: [(seqno, cid, name)], where the name is
    [None] for a key that is an expression or the rowid. *)

Record column : Type := {
  col_cid : Z;
  col_name : string;
  col_type : string;
  col_notnull : Z;
  col_dflt_value : option string;
  col_pk : Z
}.

Record index : Type := {
  idx_seq : Z;
  idx_name : string;
  idx_unique : Z;
  idx_origin : string;
  idx_partial : Z
}.

Record index_key : Type := {
  key_seqno : Z;
  key_cid : Z;
  key_name : option string
}.

(** What the source cursor answers: the table names of [sqlite_master],
    the three pragmas, [SELECT * FROM table] and [SELECT column FROM
    table] (the first field of each row).  The last one pastes the
    column name into the query as it is: on a name that is no SQL
    expression, or a keyword, [execute] raises. *)
Record Sqlite : Type := {
  table_names : list string;
  table_info : string -> list column;
  index_list : string -> list index;
  index_info : string -> list index_key;
  select_all : string -> list (list value);
  select_column : string -> string -> res (list value)
}.

(** [config.py]: one configured extra column. *)
Record AdditionalColumn : Type := {
  type : string;
  default_value : value
}.

(** A dict keeps its keys in insertion order. *)
Definition additional_columns_t : Type := list (string * AdditionalColumn).

(** Truth value of an integer and of an optional string. *)
Definition truthy (n : Z) : bool := negb (n =? 0).

Definition truthy_text (o : option string) : bool :=
  match o with Some s => Py.nonempty_string s | None => false end.

(** ** SchemaIntrospector *)

Definition get_tables (src : Sqlite) : list string := table_names src.

Definition get_table_schema (src : Sqlite) (table_name : string)
  : list column := table_info src table_name.

Definition get_unique_constraints (src : Sqlite) (table_name : string)
  : list (string * list (option string)) :=
  map (fun ix => (idx_name ix, map key_name (index_info src (idx_name ix))))
      (filter (fun ix => truthy (idx_unique ix)) (index_list src table_name)).

(** ** Width inference: [determine_column_type] *)

(** [abs(value) > bound] for one sampled value. *)
Definition magnitude_gt (bound : Z) (v : value) : res bool :=
  match v with
  | VInt n => Ok (bound <? Z.abs n)
  | VBool b => Ok (bound <? (if b then 1 else 0))
  | VFloat f => Ok (Py.float_magnitude_gt f bound)
  | VNone | VText _ | VBytes _ => Raise TypeError
  end.

(** [any(abs(value) > bound for value in sample_data)]: stops at the
    first true. *)
Fixpoint any_magnitude_gt (bound : Z) (sample_data : list value) : res bool :=
  match sample_data with
  | [] => Ok false
  | v :: rest =>
      match magnitude_gt bound v with
      | Ok true => Ok true
      | Ok false => any_magnitude_gt bound rest
      | Raise e => Raise e
      end
  end.

(** Lines 51-60: from the fetched values of the column to the type. *)
Definition resolve_width (fetched : list value) : res string :=
  let sample_data := filter (fun v => negb (is_none v)) fetched in
  match sample_data with
  | [] => Ok "INTEGER"
  | _ =>
      match any_magnitude_gt (2 ^ 63 - 1) sample_data with
      | Raise e => Raise e
      | Ok true => Ok "NUMERIC"
      | Ok false =>
          match any_magnitude_gt (2 ^ 31 - 1) sample_data with
          | Raise e => Raise e
          | Ok true => Ok "BIGINT"
          | Ok false => Ok "INTEGER"
          end
      end
  end.

(** The result, with the queries the call runs on the source cursor. *)
Definition determine_column_type (src : Sqlite)
    (table_name column_name column_type : string)
  : list string * res string :=
  if negb (points_eqb (upper column_type) (code_points "INTEGER"))
  then ([], Ok (convert_type column_type))
  else (["SELECT " +++ column_name +++ " FROM " +++ table_name],
        match select_column src table_name column_name with
        | Raise e => Raise e
        | Ok fetched => resolve_width fetched
        end).

(** ** DDLBuilder: [create_table_query] *)

Definition constraints_of (c : column) : list string :=
  (if truthy (col_pk c) then ["PRIMARY KEY"] else [])
  ++ (if truthy (col_notnull c) then ["NOT NULL"] else [])
  ++ (if truthy_text (col_dflt_value c)
      then ["DEFAULT " +++ match col_dflt_value c with
                           | Some d => d
                           | None => "None"
                           end]
      else []).

Definition column_clause (pg_col_type : string) (c : column) : string :=
  let constraints_str := join " " (constraints_of c) in
  let constraints_str :=
    if Py.nonempty_string constraints_str
    then " " +++ constraints_str else constraints_str in
  col_name c +++ " " +++ pg_col_type +++ constraints_str.

Definition extra_clause (e : string * AdditionalColumn) : string :=
  fst e +++ " " +++ convert_type (type (snd e)).

Definition unique_clause (u : string * list string) : string :=
  "UNIQUE (" +++ join ", " (snd u) +++ ")".

(** What [', '.join] is given for an item: a [str], or something else,
    on which it raises [TypeError]. *)
Class JoinItem (A : Type) : Type := as_str : A -> option string.

#[export] Instance str_item : JoinItem string := Some.
#[export] Instance optional_str_item : JoinItem (option string) :=
  fun o => o.

Fixpoint strs {A} `{JoinItem A} (items : list A) : option (list string) :=
  match items with
  | [] => Some []
  | x :: rest =>
      match as_str x, strs rest with
      | Some s, Some l => Some (s :: l)
      | _, _ => None
      end
  end.

Fixpoint add_columns (src : Sqlite) (table_name : string)
    (columns : list column) (query : string) : res string :=
  match columns with
  | [] => Ok query
  | c :: rest =>
      match snd (determine_column_type src table_name (col_name c)
                                       (col_type c)) with
      | Raise e => Raise e
      | Ok pg_col_type =>
          add_columns src table_name rest
                      (query +++ column_clause pg_col_type c +++ ", ")
      end
  end.

(** Lines 85-86. *)
Fixpoint add_unique_constraints {A} `{JoinItem A}
    (unique_constraints : list (string * list A)) (query : string)
  : res string :=
  match unique_constraints with
  | [] => Ok query
  | (index_name, unique_columns) :: rest =>
      match strs unique_columns with
      | None => Raise TypeError
      | Some names =>
          add_unique_constraints rest
            (query +++ unique_clause (index_name, names) +++ ", ")
      end
  end.

Definition create_table_query {A} `{JoinItem A} (src : Sqlite)
    (table_name : string) (columns : list column)
    (additional_columns : additional_columns_t)
    (unique_constraints : list (string * list A)) : res string :=
  let query := "CREATE TABLE IF NOT EXISTS " +++ table_name +++ " (" in
  match add_columns src table_name columns query with
  | Raise e => Raise e
  | Ok query =>
      let query :=
        fold_left (fun q e => q +++ extra_clause e +++ ", ")
                  additional_columns query in
      match add_unique_constraints unique_constraints query with
      | Raise e => Raise e
      | Ok query => Ok (rstrip comma_or_space query +++ ");")
      end
  end.

(** ** RowCoercer and TransferOrchestrator *)

(** How a run ends other than by returning: [exit(code)], or an
    exception nobody caught. *)
Inductive stop : Type :=
| SystemExit (code : Z)
| Uncaught (e : exn).


Definition is_commit (ev : event) : bool :=
  match ev with Commit => true | _ => false end.

(** [row[i] = v]. *)
Fixpoint set_nth {A} (i : nat) (v : A) (l : list A) : list A :=
  match l, i with
  | [], _ => []
  | _ :: l', O => v :: l'
  | x :: l', S i' => x :: set_nth i' v l'
  end.

Fixpoint lookup {A} (k : string) (d : list (string * A)) : option A :=
  match d with
  | [] => None
  | (k', a) :: d' => if (k' =? k)%string then Some a else lookup k d'
  end.

Section Transfer.

Variable rt : Py.Runtime.

(** The target accepts or rejects a call, given the calls made so far
    (oldest first); a rejected call raises. *)
Variable accepts : list event -> event -> bool.

(** Lines 103-111. *)
Definition coerce_boolean (v : value) : res value :=
  match v with
  | VBool _ => Ok v
  | VInt n => Ok (VBool (truthy n))
  | VText s =>
      if Py.isdigit s
      then res_map (fun n => VBool (truthy n))
                   (Py.of_option ValueError (Py.int_of_text s))
      else if existsb (String.eqb (lower s)) ["true"; "false"]
           then match lookup (lower s) [("true", true); ("false", false)] with
                | Some b => Ok (VBool b)
                | None => Raise ValueError
                end
           else Ok v
  | VBytes b =>
      if Py.bytes_isdigit b
      then res_map (fun n => VBool (truthy n))
                   (Py.of_option ValueError (Py.int_of_bytes b))
      else Ok v
  | VFloat _ => Raise AttributeError
  | VNone => Raise AttributeError
  end.

(** Lines 102-117, for a value that is not [None]. *)
Definition coerce_value (col_type : string) (v : value) : res value :=
  if (col_type =? "BOOLEAN")%string then coerce_boolean v
  else if (col_type =? "TEXT")%string then res_map VText (Py.str rt v)
  else if existsb (String.eqb col_type) ["INTEGER"; "BIGINT"; "NUMERIC"]
       then res_map VInt (Py.int v)
  else if (col_type =? "DOUBLE PRECISION")%string
       then res_map VFloat (Py.float rt v)
  else Ok v.

(** Line 98. *)
Definition none_literal (v : value) : value :=
  match v with
  | VText s => if (s =? "None")%string then VNone else v
  | _ => v
  end.

(** Lines 100-117: [for i, col in enumerate(columns)], from index [i]. *)
Fixpoint coerce_columns (i : nat) (columns : list column) (row : list value)
  : res (list value) :=
  match columns with
  | [] => Ok row
  | col :: rest =>
      match nth_error row i with
      | None => Raise IndexError
      | Some VNone => coerce_columns (S i) rest row
      | Some v =>
          match coerce_value (convert_type (col_type col)) v with
          | Raise e => Raise e
          | Ok v' => coerce_columns (S i) rest (set_nth i v' row)
          end
      end
  end.

(** Lines 97-120: the values handed to the INSERT. *)
Definition coerce_row (columns : list column)
    (additional_columns : additional_columns_t) (row : list value)
  : res (list value) :=
  let row := map none_literal row in
  match coerce_columns 0 columns row with
  | Raise e => Raise e
  | Ok row => Ok (row ++ map (fun e => default_value (snd e)) additional_columns)
  end.

(** The row as lines 100-117 leave it, whether they finish or raise:
    the assignments of lines 107-117 change [row] in place, so the
    fields coerced before a failure stay coerced. *)
Fixpoint coerced_so_far (i : nat) (columns : list column) (row : list value)
  : list value :=
  match columns with
  | [] => row
  | col :: rest =>
      match nth_error row i with
      | None => row
      | Some VNone => coerced_so_far (S i) rest row
      | Some v =>
          match coerce_value (convert_type (col_type col)) v with
          | Raise _ => row
          | Ok v' => coerced_so_far (S i) rest (set_nth i v' row)
          end
      end
  end.

(** What [row] holds when the handler of line 125 runs: the values
    handed to the INSERT when the coercion went through, and otherwise
    the row as the coercion left it. *)
Definition row_at_failure (columns : list column)
    (additional_columns : additional_columns_t) (row : list value)
  : list value :=
  match coerce_row columns additional_columns row with
  | Ok row' => row'
  | Raise _ => coerced_so_far 0 columns (map none_literal row)
  end.

(** Lines 92-94. *)
Definition insert_columns (columns : list column)
    (additional_columns : additional_columns_t) : list string :=
  map col_name columns ++ map fst additional_columns.

Definition insert_query (table_name : string) (columns : list column)
    (additional_columns : additional_columns_t) : string :=
  let col_names := join ", " (insert_columns columns additional_columns) in
  let placeholders :=
    join ", " (repeat "%s"
                 (List.length columns + List.length additional_columns)) in
  "INSERT INTO " +++ table_name +++ " (" +++ col_names +++ ") VALUES ("
    +++ placeholders +++ ")".

(** *** Effects: the calls made so far, and a result or a stop *)

Definition M (A : Type) : Type := list event -> list event * (A + stop).

Definition ret {A} (a : A) : M A := fun h => (h, inl a).

Definition bind {A B} (m : M A) (k : A -> M B) : M B :=
  fun h =>
    match m h with
    | (h', inl a) => k a h'
    | (h', inr s) => (h', inr s)
    end.

Notation "x <- m ;; k" := (bind m (fun x => k))
  (at level 61, m at next level, right associativity).
Notation "m ;;; k" := (bind m (fun _ => k))
  (at level 61, right associativity).

Definition raise {A} (e : exn) : M A := fun h => (h, inr (Uncaught e)).

Definition exit {A} (code : Z) : M A := fun h => (h, inr (SystemExit code)).

Definition lift {A} (r : res A) : M A :=
  match r with Ok a => ret a | Raise e => raise e end.

(** A call on the target that may fail ([execute], [commit],
    [rollback]): recorded, then accepted or raising. *)
Definition call (ev : event) : M unit :=
  fun h => (h ++ [ev],
            if accepts h ev then inl tt else inr (Uncaught DatabaseError)).

(** [pg_conn.close()]: recorded; closing does not raise. *)
Definition close : M unit := fun h => (h ++ [Close], inl tt).

(** [try: body except Exception as e: handler]; [SystemExit] is not an
    [Exception] and passes through. *)
Definition try_except {A} (body : M A) (handler : exn -> M A) : M A :=
  fun h =>
    match body h with
    | (h', inr (Uncaught e)) => handler e h'
    | r => r
    end.

(** Lines 126-127: the row and the traceback go to the console. *)
Definition report (row : list value) (e : exn) : M unit :=
  fun h =>
    match Py.print_error rt h row e with
    | None => (h, inl tt)
    | Some e' => (h, inr (Uncaught e'))
    end.

(** Lines 126-129. *)
Definition on_error (row : list value) (e : exn) : M unit :=
  report row e ;;; call Rollback ;;; exit 1.

(** The body of the [try] for row number [j]. *)
Definition insert_row (query : string) (columns : list column)
    (additional_columns : additional_columns_t) (j : Z) (row : list value)
  : M unit :=
  row' <- lift (coerce_row columns additional_columns row) ;;
  call (Execute query (Some row')) ;;;
  if j mod 16384 =? 0 then call Commit else ret tt.

(** [for j, row in enumerate(rows)], from index [j]. *)
Fixpoint insert_rows (query : string) (columns : list column)
    (additional_columns : additional_columns_t) (j : Z)
    (rows : list (list value)) : M unit :=
  match rows with
  | [] => ret tt
  | row :: rest =>
      try_except (insert_row query columns additional_columns j row)
                 (on_error (row_at_failure columns additional_columns row))
      ;;;
      insert_rows query columns additional_columns (j + 1) rest
  end.

Definition insert_data (table_name : string) (columns : list column)
    (rows : list (list value)) (additional_columns : additional_columns_t)
  : M unit :=
  insert_rows (insert_query table_name columns additional_columns)
              columns additional_columns 0 rows ;;;
  call Commit.

(** Lines 142-148: the loop that builds the statements.  [columns] is the
    variable of that name: each turn assigns it. *)
Fixpoint plan_tables (src : Sqlite) (additional_columns : additional_columns_t)
    (tables : list string) (columns : list column) (queries : list string)
  : res (list column * list string) :=
  match tables with
  | [] => Ok (columns, queries)
  | table_name :: rest =>
      let columns := get_table_schema src table_name in
      let unique_constraints := get_unique_constraints src table_name in
      match create_table_query src table_name columns additional_columns
                               unique_constraints with
      | Raise e => Raise e
      | Ok q => plan_tables src additional_columns rest columns (queries ++ [q])
      end
  end.

(** Lines 159-165: [columns] is read, never assigned. *)
Fixpoint copy_tables (src : Sqlite) (additional_columns : additional_columns_t)
    (columns : list column) (todo : list (string * string)) : M unit :=
  match todo with
  | [] => ret tt
  | (table_name, create_table_query_str) :: rest =>
      call (Execute create_table_query_str None) ;;;
      (let rows := select_all src table_name in
       match rows with
       | [] => ret tt
       | _ => insert_data table_name columns rows additional_columns
       end) ;;;
      copy_tables src additional_columns columns rest
  end.

(** [print(text)] outside the handler: [console text] is [None] when
    the console writes the text, or the exception it raises on markup
    it cannot read. *)
Definition console_print (console : string -> option exn) (text : string)
  : M unit :=
  fun h =>
    match console text with
    | None => (h, inl tt)
    | Some e => (h, inr (Uncaught e))
    end.

(** Lines 151-152. *)
Fixpoint print_queries (console : string -> option exn)
    (create_table_queries : list string) : M unit :=
  match create_table_queries with
  | [] => ret tt
  | query :: rest =>
      console_print console query ;;; print_queries console rest
  end.

(** [answer] is what the user types at the prompt.  Before the first
    turn of the planning loop [columns] is unbound; it is read only after
    a turn has assigned it, so the initial [[]] is never seen. *)
Definition sqlite_to_postgresql (console : string -> option exn)
    (src : Sqlite) (additional_columns : additional_columns_t)
    (answer : string) : M unit :=
  let tables := get_tables src in
  console_print console ("Tables for convert: " +++ join " " tables) ;;;
  planned <- lift (plan_tables src additional_columns tables [] []) ;;
  let '(columns, create_table_queries) := planned in
  console_print console "Create table queries:" ;;;
  print_queries console create_table_queries ;;;
  if negb (answer =? "y")%string
  then close
  else
    copy_tables src additional_columns columns
                (combine tables create_table_queries) ;;;
    close.

(** A console that writes every text of the progress output. *)
Definition writes_all : string -> option exn := fun _ => None.

(** The calls a run makes and how it ends, on a console that writes the
    progress output. *)
Definition run (src : Sqlite) (additional_columns : additional_columns_t)
    (answer : string) : list event * (unit + stop) :=
  sqlite_to_postgresql writes_all src additional_columns answer [].

End Transfer.

(** ** Notions and inputs used in the statements below *)

(** A sampled integer, or the NULL of an empty cell. *)
Definition sampled (o : option Z) : value :=
  match o with Some n => VInt n | None => VNone end.

Definition exceeds (bound : Z) (o : option Z) : bool :=
  match o with Some n => bound <? Z.abs n | None => false end.

(** A source whose only table [t] has one column [c], declared BIGINT
    and holding 2^31. *)
Definition bigint_source : Sqlite := {|
  table_names := ["t"];
  table_info := fun _ =>
    [{| col_cid := 0; col_name := "c"; col_type := "BIGINT";
        col_notnull := 0; col_dflt_value := None; col_pk := 0 |}];
  index_list := fun _ => [];
  index_info := fun _ => [];
  select_all := fun _ => [[VInt (2 ^ 31)]];
  select_column := fun _ _ => Ok [VInt (2 ^ 31)]
|}.


(** A run time for the closed examples below.  None of them prints a
    float or a [bytes] object or parses a float, so what these fields
    answer is never looked at; the rows the examples report hold no
    square bracket, and the console writes them. *)
Definition example_runtime : Py.Runtime := {|
  Py.repr_float := fun _ => "nan";
  Py.repr_bytes := fun b => b;
  Py.float_of_int := fun n => Ok (Finite n 0);
  Py.float_of_text := fun _ => Raise ValueError;
  Py.float_of_bytes := fun _ => Raise ValueError;
  Py.print_error := fun _ _ _ => None
|}.

(** The float nearest to 3.9: [0x1F333333333333 * 2^-51]. *)
Definition float_3_9 : pyfloat := Finite 0x1F333333333333 (-51).

(** Two columns, an INTEGER key and a BOOL flag, as [PRAGMA table_info]
    reports them. *)
Definition id_column : column := {|
  col_cid := 0; col_name := "id"; col_type := "INTEGER";
  col_notnull := 1; col_dflt_value := None; col_pk := 1 |}.

Definition flag_column : column := {|
  col_cid := 1; col_name := "flag"; col_type := "BOOL";
  col_notnull := 0; col_dflt_value := Some "0"; col_pk := 0 |}.

(** [s] is not empty and its last character is neither a comma nor a
    space: [rstrip(', ')] leaves it whole. *)
Definition ends_clean (s : string) : bool :=
  match last_char s with
  | Some c => negb (comma_or_space c)
  | None => false
  end.

(** The default literal of a column, when one is emitted, ends clean. *)
Definition default_ends_clean (c : column) : bool :=
  match col_dflt_value c with
  | Some d => if Py.nonempty_string d then ends_clean d else true
  | None => true
  end.

(** Clauses, each followed by the separator, as the loops append them. *)
Fixpoint trailing (clauses : list string) : string :=
  match clauses with
  | [] => ""
  | c :: rest => c +++ ", " +++ trailing rest
  end.

(** The last of the clauses ends clean. *)
Definition last_clean (clauses : list string) : Prop :=
  exists pre x, clauses = pre ++ [x] /\ ends_clean x = true.

(** A target that accepts every call. *)
Definition accept_all : list event -> event -> bool := fun _ _ => true.

(** The calls of the row loop when nothing fails, from row number [j]:
    each row's INSERT, followed by a COMMIT when the row number is a
    multiple of 16384. *)
Fixpoint copy_events (coerced : list value -> list value) (query : string)
    (j : Z) (rows : list (list value)) : list event :=
  match rows with
  | [] => []
  | row :: rest =>
      Execute query (Some (coerced row))
        :: (if j mod 16384 =? 0 then [Commit] else [])
        ++ copy_events coerced query (j + 1) rest
  end.

(** The table of the specification's round trip: [(id INTEGER PRIMARY
    KEY, name TEXT, flag BOOL)] with rows [(1, "a", 1)] and
    [(2, "b", 0)], and a unique index on [(name, id)]. *)
Definition name_column : column := {|
  col_cid := 1; col_name := "name"; col_type := "TEXT";
  col_notnull := 0; col_dflt_value := None; col_pk := 0 |}.

Definition people_columns : list column :=
  [ {| col_cid := 0; col_name := "id"; col_type := "INTEGER";
       col_notnull := 0; col_dflt_value := None; col_pk := 1 |};
    name_column;
    {| col_cid := 2; col_name := "flag"; col_type := "BOOL";
       col_notnull := 0; col_dflt_value := None; col_pk := 0 |} ].

Definition people_rows : list (list value) :=
  [ [VInt 1; VText "a"; VInt 1]; [VInt 2; VText "b"; VInt 0] ].

Definition people_source : Sqlite := {|
  table_names := ["people"];
  table_info := fun _ => people_columns;
  index_list := fun _ =>
    [{| idx_seq := 0; idx_name := "people_name_id"; idx_unique := 1;
        idx_origin := "c"; idx_partial := 0 |}];
  index_info := fun _ =>
    [{| key_seqno := 0; key_cid := 1; key_name := Some "name" |};
     {| key_seqno := 1; key_cid := 0; key_name := Some "id" |}];
  select_all := fun _ => people_rows;
  select_column := fun _ _ => Ok [VInt 1; VInt 2]
|}.

(** The extra column of the specification's example. *)
Definition legacy_column : additional_columns_t :=
  [("src", {| type := "TEXT"; default_value := VText "legacy" |})].

(** Two tables of three columns each: [notes (ref TEXT, body TEXT,
    pinned TEXT)] with the one row [("7", "hello", "true")], then
    [people] as above. *)
Definition notes_columns : list column :=
  [ {| col_cid := 0; col_name := "ref"; col_type := "TEXT";
       col_notnull := 0; col_dflt_value := None; col_pk := 0 |};
    {| col_cid := 1; col_name := "body"; col_type := "TEXT";
       col_notnull := 0; col_dflt_value := None; col_pk := 0 |};
    {| col_cid := 2; col_name := "pinned"; col_type := "TEXT";
       col_notnull := 0; col_dflt_value := None; col_pk := 0 |} ].

Definition notes_rows : list (list value) :=
  [ [VText "7"; VText "hello"; VText "true"] ].

Definition notes_people_source : Sqlite := {|
  table_names := ["notes"; "people"];
  table_info := fun t =>
    if (t =? "notes")%string then notes_columns else people_columns;
  index_list := fun _ => [];
  index_info := fun _ => [];
  select_all := fun t =>
    if (t =? "notes")%string then notes_rows else people_rows;
  select_column := fun _ _ => Ok [VInt 1; VInt 2]
|}.

(** What [coerce_row] gives, or the empty row when it raises. *)
Definition coerced_or_empty (rt : Py.Runtime) (columns : list column)
    (additional_columns : additional_columns_t) (row : list value)
  : list value :=
  match coerce_row rt columns additional_columns row with
  | Ok out => out
  | Raise _ => []
  end.












(** ** Further notions used in the statements below *)

(** The integer types by width. *)
Definition width_rank (pg_type : res string) : nat :=
  match pg_type with
  | Ok t =>
      if (t =? "NUMERIC")%string then 2
      else if (t =? "BIGINT")%string then 1
      else 0
  | Raise _ => 0
  end.

(** An entry of the table matches [s]. *)
Definition entry_matches (s : string) (entry : regex * string) : bool :=
  re_match (fst entry) s true.

(** The entries of [table] that match [s] map it to one type. *)
Definition agreeing (s : string) (table : list (regex * string)) : Prop :=
  forall e1 e2, In e1 table -> In e2 table ->
    entry_matches s e1 = true -> entry_matches s e2 = true ->
    snd e1 = snd e2.

(** [v] already has the Python type the coercion to [pg_type] produces,
    or is NULL; a text is not the text [None]. *)
Definition already_typed (pg_type : string) (v : value) : bool :=
  match v with
  | VNone => true
  | VBool _ => (pg_type =? "BOOLEAN")%string || (pg_type =? "BYTEA")%string
  | VInt _ =>
      existsb (String.eqb pg_type) ["INTEGER"; "BIGINT"; "NUMERIC"; "BYTEA"]
  | VFloat _ =>
      (pg_type =? "DOUBLE PRECISION")%string || (pg_type =? "BYTEA")%string
  | VText s =>
      negb (s =? "None")%string
      && ((pg_type =? "TEXT")%string || (pg_type =? "BYTEA")%string)
  | VBytes _ => (pg_type =? "BYTEA")%string
  end.

(** The default values appended to every row. *)
Definition defaults_of (additional_columns : additional_columns_t)
  : list value :=
  map (fun e => default_value (snd e)) additional_columns.

(** The CREATE TABLE statements among the calls, in call order, and
    the closings of the connection. *)
Definition statement_of (ev : event) : list string :=
  match ev with Execute q None => [q] | _ => [] end.

Definition ddl_of (trace : list event) : list string :=
  flat_map statement_of trace.

Definition closing (ev : event) : list unit :=
  match ev with Close => [tt] | _ => [] end.

(** A computation that makes no call of the kind [f] picks out. *)
Definition adds_none {A B} (f : event -> list B)
    (m : list event -> list event * (A + stop)) : Prop :=
  forall h, flat_map f (fst (m h)) = flat_map f h.

(** The statement planned for one table, from its own schema. *)
Definition planned_statement (src : Sqlite)
    (additional_columns : additional_columns_t) (table_name : string)
  : res string :=
  create_table_query src table_name (get_table_schema src table_name)
                     additional_columns
                     (get_unique_constraints src table_name).

(** Lines 162-165: the rows of one table, when it has any. *)
Definition copy_rows_of (rt : Py.Runtime)
    (accepts : list event -> event -> bool) (src : Sqlite)
    (additional_columns : additional_columns_t) (columns : list column)
    (table_name : string) (h : list event) : list event * (unit + stop) :=
  match select_all src table_name with
  | [] => (h, inl tt)
  | rows =>
      insert_data rt accepts table_name columns rows additional_columns h
  end.


Definition is_zero_char (c : ascii) : bool := (c =? "0")%char.


(** * Properties *)

(** ** Characters *)

Ltac by_cases_on_char c :=
  destruct c as [[] [] [] [] [] [] [] []]; reflexivity.

Lemma upper_of_lower (c : ascii) : upper_ascii (lower_ascii c) = upper_ascii c.
Proof. by_cases_on_char c. Qed.

Lemma lower_of_upper (c : ascii) : lower_ascii (upper_ascii c) = lower_ascii c.
Proof. by_cases_on_char c. Qed.

Lemma lit_matches_same_letter (a b : ascii) :
  lit_matches true a b = same_letter a b.
Proof.
  unfold lit_matches, same_letter.
  destruct (Ascii.eqb_spec (lower_ascii a) (lower_ascii b)) as [E | E];
    destruct (Ascii.eqb_spec (upper_ascii a) (upper_ascii b)) as [F | F];
    try reflexivity; exfalso.
  - apply F. rewrite <- (upper_of_lower a), <- (upper_of_lower b).
    now rewrite E.
  - apply E. rewrite <- (lower_of_upper a), <- (lower_of_upper b).
    now rewrite F.
Qed.

Lemma class_letters_is_letter (c : ascii) :
  class_matches true [Span "A" "Z"] c = is_letter c.
Proof. by_cases_on_char c. Qed.

(** ** The matcher on the patterns of the table *)

Section Matching.

Lemma nonempty_app {A} (l1 l2 : list A) :
  nonempty (l1 ++ l2) = nonempty l1 || nonempty l2.
Proof. destruct l1; reflexivity. Qed.

Lemma nonempty_flat_map {A B} (f : A -> list B) (l : list A) :
  nonempty (flat_map f l) = existsb (fun x => nonempty (f x)) l.
Proof.
  induction l as [| x l IH]; simpl; [reflexivity |].
  now rewrite nonempty_app, IH.
Qed.

Lemma re_match_alt (r1 r2 : regex) (s : string) (ic : bool) :
  re_match (Alt r1 r2) s ic = re_match r1 s ic || re_match r2 s ic.
Proof. apply nonempty_app. Qed.

Lemma re_match_cat (r1 r2 : regex) (s : string) (ic : bool) :
  re_match (Cat r1 r2) s ic
  = existsb (fun s' => re_match r2 s' ic) (ends ic r1 s).
Proof. apply nonempty_flat_map. Qed.

Lemma re_match_star (r : regex) (s : string) (ic : bool) :
  re_match (Star r) s ic = true.
Proof.
  unfold re_match; simpl.
  destruct (String.length s); simpl; [reflexivity |].
  rewrite nonempty_app; simpl. apply orb_true_r.
Qed.

Lemma re_match_then_star (r q : regex) (s : string) (ic : bool) :
  re_match (Cat r (Star q)) s ic = re_match r s ic.
Proof.
  rewrite re_match_cat. unfold re_match at 2.
  induction (ends ic r s) as [| s' l IH]; simpl; [reflexivity |].
  now rewrite re_match_star.
Qed.

Lemma re_match_word (w s : string) :
  re_match (word w) s true = starts_with_ci w s.
Proof.
  revert s; induction w as [| c w IH]; intros s; [reflexivity |].
  change (word (String c w)) with (Cat (Lit c) (word w)).
  rewrite re_match_cat.
  destruct s as [| x s]; [reflexivity |].
  cbn [ends one_char starts_with_ci].
  rewrite lit_matches_same_letter.
  destruct (same_letter c x); cbn [existsb andb]; [| reflexivity].
  now rewrite IH, orb_false_r.
Qed.

Lemma ends_upto_S (ic : bool) (k : nat) (r : regex) (s : string) :
  ends ic (Upto (S k) r) s
  = flat_map (ends ic (Upto k r)) (ends ic r s) ++ [s].
Proof. reflexivity. Qed.

Lemma letters_then_matches (w : string) (k : nat) (s : string) :
  existsb (starts_with_ci w) (ends true (Upto k letters) s)
  = letters_then k w s.
Proof.
  revert s; induction k as [| k IH]; intros s.
  - simpl. destruct s; now rewrite !orb_false_r.
  - rewrite ends_upto_S, existsb_app. simpl existsb at 2.
    rewrite orb_false_r, orb_comm.
    destruct s as [| c s]; [reflexivity |].
    cbn [letters_then]. f_equal.
    unfold letters at 2. cbn [ends one_char].
    rewrite class_letters_is_letter.
    destruct (is_letter c); cbn [flat_map existsb andb]; [| reflexivity].
    rewrite app_nil_r. exact (IH s).
Qed.

Lemma re_match_integer_pattern (s : string) :
  re_match (Cat (Cat (Upto 3 letters) (word "INT")) (Star alnums)) s true
  = integer_pattern s.
Proof.
  rewrite re_match_then_star, re_match_cat.
  unfold integer_pattern. rewrite <- letters_then_matches.
  induction (ends true (Upto 3 letters) s) as [| s' l IH]; [reflexivity |].
  cbn [existsb]. now rewrite re_match_word, IH.
Qed.

End Matching.

Lemma convert_type_as_specified (s : string) :
  convert_type s = mapDeclaredType_spec s.
Proof.
  unfold convert_type, mapDeclaredType_spec, type_mapping, first_match.
  rewrite re_match_integer_pattern, re_match_alt, !re_match_word.
  repeat match goal with
         | |- context [if ?b then _ else _] => destruct b; simpl
         end; reflexivity.
Qed.

(** C6. [convert_type] is a total function of the declared type: it
    agrees, on every string, with the ordered first-match list of the
    specification (the integer pattern, then TEXT or STRING, BLOB, REAL,
    NUMERIC, BOOL, FLOAT, each a prefix match with letter case ignored);
    a string no pattern matches maps to TEXT; and the result is always
    one of the six type names of the table. *)
Theorem C6_convert_type_ordered_first_match :
  (forall s, convert_type s = mapDeclaredType_spec s)
  /\ (forall s, first_match type_mapping s = None -> convert_type s = "TEXT")
  /\ (forall s, In (convert_type s)
                  ["INTEGER"; "TEXT"; "BYTEA"; "DOUBLE PRECISION";
                   "NUMERIC"; "BOOLEAN"]).
Proof.
  split; [exact convert_type_as_specified | split].
  - intros s H. unfold convert_type. now rewrite H.
  - intros s. rewrite convert_type_as_specified. unfold mapDeclaredType_spec.
    repeat match goal with
           | |- context [if ?b then _ else _] => destruct b
           end; simpl; tauto.
Qed.

(** ** Width inference *)

Lemma any_magnitude_gt_sampled (bound : Z) (samples : list (option Z)) :
  any_magnitude_gt bound
    (filter (fun v => negb (is_none v)) (map sampled samples))
  = Ok (existsb (exceeds bound) samples).
Proof.
  induction samples as [| [n |] l IH]; simpl; auto.
  rewrite IH. now destruct (bound <? Z.abs n).
Qed.

Lemma resolve_width_sampled (samples : list (option Z)) :
  resolve_width (map sampled samples)
  = Ok (if forallb (fun o => match o with Some _ => false | None => true end)
                   samples then "INTEGER"
        else if existsb (exceeds (2 ^ 63 - 1)) samples then "NUMERIC"
        else if existsb (exceeds (2 ^ 31 - 1)) samples then "BIGINT"
        else "INTEGER").
Proof.
  unfold resolve_width.
  rewrite !any_magnitude_gt_sampled.
  induction samples as [| [n |] l IH].
  - reflexivity.
  - cbn [map sampled filter is_none negb forallb].
    destruct (existsb (exceeds (2 ^ 63 - 1)) (Some n :: l)); [reflexivity |].
    now destruct (existsb (exceeds (2 ^ 31 - 1)) (Some n :: l)).
  - cbn [map sampled filter is_none negb forallb existsb exceeds orb andb].
    exact IH.
Qed.

Lemma exceeds_none (bound : Z) (samples : list (option Z)) :
  (forall n, In (Some n) samples -> Z.abs n <= bound) ->
  existsb (exceeds bound) samples = false.
Proof.
  intros H. destruct (existsb (exceeds bound) samples) eqn:E; [| reflexivity].
  apply existsb_exists in E. destruct E as [[n |] [Hin Hn]]; [| discriminate].
  apply H in Hin. simpl in Hn. apply Z.ltb_lt in Hn. lia.
Qed.

Lemma exceeds_some (bound : Z) (samples : list (option Z)) :
  (exists n, In (Some n) samples /\ bound < Z.abs n) ->
  existsb (exceeds bound) samples = true.
Proof.
  intros [n [Hin Hn]]. apply existsb_exists. exists (Some n).
  split; [assumption |]. now apply Z.ltb_lt.
Qed.

Lemma all_null (samples : list (option Z)) :
  forallb (fun o => match o with Some _ => false | None => true end) samples
  = true <-> (forall n, ~ In (Some n) samples).
Proof.
  rewrite forallb_forall. split.
  - intros H n Hin. now apply H in Hin.
  - intros H [n |] Hin; [now apply H in Hin | reflexivity].
Qed.

(** C5. On sampled integers (an empty cell being NULL) the width is
    INTEGER when no sample is non-null; NUMERIC when some magnitude
    exceeds 2^63-1; otherwise BIGINT when some magnitude exceeds 2^31-1;
    otherwise INTEGER.  So [[]] and [[5]] give INTEGER, [[2^31]] gives
    BIGINT and [[2^63]] gives NUMERIC. *)
Theorem C5_resolve_width_by_magnitude :
  (forall samples,
      (forall n, ~ In (Some n) samples) ->
      resolve_width (map sampled samples) = Ok "INTEGER")
  /\ (forall samples,
      (exists n, In (Some n) samples /\ 2 ^ 63 - 1 < Z.abs n) ->
      resolve_width (map sampled samples) = Ok "NUMERIC")
  /\ (forall samples,
      (forall n, In (Some n) samples -> Z.abs n <= 2 ^ 63 - 1) ->
      (exists n, In (Some n) samples /\ 2 ^ 31 - 1 < Z.abs n) ->
      resolve_width (map sampled samples) = Ok "BIGINT")
  /\ (forall samples,
      (forall n, In (Some n) samples -> Z.abs n <= 2 ^ 31 - 1) ->
      resolve_width (map sampled samples) = Ok "INTEGER")
  /\ resolve_width [] = Ok "INTEGER"
  /\ resolve_width [VInt 5] = Ok "INTEGER"
  /\ resolve_width [VInt (2 ^ 31)] = Ok "BIGINT"
  /\ resolve_width [VInt (2 ^ 63)] = Ok "NUMERIC".
Proof.
  repeat split; try reflexivity; intros samples.
  - intros H. rewrite resolve_width_sampled.
    apply all_null in H. now rewrite H.
  - intros H. rewrite resolve_width_sampled.
    destruct (forallb _ samples) eqn:E.
    + destruct H as [n [Hin _]]. now apply (proj1 (all_null _) E) in Hin.
    + now rewrite (exceeds_some _ _ H).
  - intros Hle H. rewrite resolve_width_sampled.
    destruct (forallb _ samples) eqn:E.
    + destruct H as [n [Hin _]]. now apply (proj1 (all_null _) E) in Hin.
    + now rewrite (exceeds_none _ _ Hle), (exceeds_some _ _ H).
  - intros Hle. rewrite resolve_width_sampled.
    destruct (forallb _ samples); [reflexivity |].
    rewrite (exceeds_none (2 ^ 31 - 1) _ Hle).
    rewrite exceeds_none; [reflexivity |].
    intros n Hin. apply Hle in Hin. lia.
Qed.

(** ** Which columns are sampled *)

Lemma points_eqb_eq (a b : list N) : points_eqb a b = true <-> a = b.
Proof.
  revert b; induction a as [| x a IH]; intros [| y b]; cbn;
    try (split; [discriminate | discriminate]); [tauto |].
  rewrite andb_true_iff, N.eqb_eq, IH. split.
  - now intros [-> ->].
  - intros H. now injection H.
Qed.

(** An ASCII capital other than S heads an upper-cased string only as
    the upper case of that string's first character. *)
Lemma upper_char_cons (c : ascii) (x : N) (rest tail : list N) :
  upper_char c ++ rest = x :: tail ->
  (65 <= x <= 90)%N -> x <> 83%N ->
  upper_ascii c = ascii_of_N x /\ rest = tail.
Proof.
  destruct c as [[] [] [] [] [] [] [] []]; cbn; intros H Hx Hs;
    injection H as <- H; try (exfalso; lia); try (now split);
    exfalso; now apply Hs.
Qed.

Lemma upper_integer_matches (column_type : string) :
  upper column_type = code_points "INTEGER" ->
  integer_pattern column_type = true.
Proof.
  change (code_points "INTEGER") with [73; 78; 84; 69; 71; 69; 82]%N.
  destruct column_type as [| c1 [| c2 [| c3 rest]]]; cbn [upper];
    intros H; try discriminate H.
  - apply upper_char_cons in H as [_ H]; [discriminate H | lia | lia].
  - apply upper_char_cons in H as [_ H]; [| lia | lia].
    apply upper_char_cons in H as [_ H]; [discriminate H | lia | lia].
  - apply upper_char_cons in H as [H1 H]; [| lia | lia].
    apply upper_char_cons in H as [H2 H]; [| lia | lia].
    apply upper_char_cons in H as [H3 H]; [| lia | lia].
    unfold integer_pattern; cbn [letters_then starts_with_ci].
    unfold same_letter. now rewrite H1, H2, H3.
Qed.

Lemma not_integer_not_sampled (src : Sqlite) (t c column_type : string) :
  upper column_type <> code_points "INTEGER" ->
  determine_column_type src t c column_type
  = ([], Ok (convert_type column_type)).
Proof.
  intros H. unfold determine_column_type.
  destruct (points_eqb (upper column_type) (code_points "INTEGER")) eqn:E;
    [| reflexivity].
  now apply points_eqb_eq in E.
Qed.

Lemma integer_is_sampled (src : Sqlite) (t c column_type : string) :
  upper column_type = code_points "INTEGER" ->
  determine_column_type src t c column_type
  = (["SELECT " +++ c +++ " FROM " +++ t],
     match select_column src t c with
     | Raise e => Raise e
     | Ok fetched => resolve_width fetched
     end).
Proof.
  intros H. unfold determine_column_type.
  now rewrite (proj2 (points_eqb_eq _ _) H).
Qed.

(** C2, as stated, fails: BIGINT matches the integer pattern, the data
    of the column resolves to BIGINT, yet [determine_column_type] runs no
    query and answers INTEGER. *)
Lemma C2_bigint_is_not_sampled :
  integer_pattern "BIGINT" = true
  /\ select_column bigint_source "t" "c" = Ok [VInt (2 ^ 31)]
  /\ resolve_width [VInt (2 ^ 31)] = Ok "BIGINT"
  /\ determine_column_type bigint_source "t" "c" "BIGINT"
     = ([], Ok "INTEGER")
  /\ ~ (forall src t c column_type fetched,
          integer_pattern column_type = true ->
          select_column src t c = Ok fetched ->
          snd (determine_column_type src t c column_type)
          = resolve_width fetched).
Proof.
  repeat split; try reflexivity.
  intros H.
  specialize (H bigint_source "t" "c" "BIGINT" [VInt (2 ^ 31)]
                eq_refl eq_refl).
  discriminate H.
Qed.

(** C2, amended.  A column is sampled exactly when its declared type is
    INTEGER, letter case apart: then one query reads the column and the
    type is the width of the values read, or the query raises.  For any
    other declared type no query is run and the type is that of
    [convert_type]; this covers every type that does not match the
    integer pattern, and also those that match it without being INTEGER,
    which come out as INTEGER whatever their data: INT, BIGINT and INT8
    do.  TINYINT has four letters before INT: it does not match the
    pattern and comes out as TEXT, unsampled. *)
Theorem C2_only_integer_is_sampled (src : Sqlite) (t c column_type : string) :
  (upper column_type = code_points "INTEGER" ->
     determine_column_type src t c column_type
     = (["SELECT " +++ c +++ " FROM " +++ t],
        match select_column src t c with
        | Raise e => Raise e
        | Ok fetched => resolve_width fetched
        end))
  /\ (upper column_type <> code_points "INTEGER" ->
        determine_column_type src t c column_type
        = ([], Ok (convert_type column_type)))
  /\ (integer_pattern column_type = false ->
        determine_column_type src t c column_type
        = ([], Ok (convert_type column_type)))
  /\ (integer_pattern column_type = true ->
      upper column_type <> code_points "INTEGER" ->
        determine_column_type src t c column_type = ([], Ok "INTEGER"))
  /\ upper "Integer" = code_points "INTEGER"
  /\ (integer_pattern "INT" = true
      /\ determine_column_type src t c "INT" = ([], Ok "INTEGER"))
  /\ (integer_pattern "BIGINT" = true
      /\ determine_column_type src t c "BIGINT" = ([], Ok "INTEGER"))
  /\ (integer_pattern "INT8" = true
      /\ determine_column_type src t c "INT8" = ([], Ok "INTEGER"))
  /\ (integer_pattern "TINYINT" = false
      /\ determine_column_type src t c "TINYINT" = ([], Ok "TEXT")).
Proof.
  split; [apply integer_is_sampled | split; [| split; [| split]]].
  - apply not_integer_not_sampled.
  - intros H. apply not_integer_not_sampled. intros U.
    apply upper_integer_matches in U. congruence.
  - intros H U. rewrite (not_integer_not_sampled _ _ _ _ U).
    rewrite convert_type_as_specified.
    unfold mapDeclaredType_spec. now rewrite H.
  - repeat split.
Qed.

(** ** Boolean coercion *)

Lemma letter_is_no_digit (c x : ascii) :
  is_lower x = true -> lower_char c = x -> Py.is_digit_char c = false.
Proof.
  intros Hx <-. revert Hx.
  destruct c as [[] [] [] [] [] [] [] []]; intros Hx;
    try reflexivity; discriminate Hx.
Qed.

Lemma lower_word_not_isdigit (s : string) (x : ascii) (w : string) :
  is_lower x = true -> lower s = String x w -> Py.isdigit s = false.
Proof.
  intros Hx H. destruct s as [| c s]; [discriminate |].
  unfold lower in H; cbn [map_string] in H. injection H as Hc _.
  unfold Py.isdigit; cbn [Py.nonempty_string all_chars andb].
  now rewrite (letter_is_no_digit _ _ Hx Hc).
Qed.

Lemma coerce_boolean_word (s : string) (b : bool) :
  lower s = (if b then "true" else "false") ->
  coerce_boolean (VText s) = Ok (VBool b).
Proof.
  intros H. unfold coerce_boolean.
  rewrite (lower_word_not_isdigit s (if b then "t" else "f")
             (if b then "rue" else "alse"))
    by (destruct b; first [reflexivity | exact H]).
  rewrite H. now destruct b.
Qed.

Lemma coerce_boolean_other_text (s : string) :
  Py.isdigit s = false -> lower s <> "true" -> lower s <> "false" ->
  coerce_boolean (VText s) = Ok (VText s).
Proof.
  intros D T F. unfold coerce_boolean. rewrite D. cbn [existsb].
  destruct (String.eqb_spec (lower s) "true"); [contradiction |].
  destruct (String.eqb_spec (lower s) "false"); [contradiction |].
  reflexivity.
Qed.

(** C3, as stated, fails: the text [maybe] in a BOOL column raises
    nothing at the coercion step; it comes out as it went in. *)
Lemma C3_maybe_is_no_error :
  convert_type "BOOL" = "BOOLEAN"
  /\ coerce_value example_runtime "BOOLEAN" (VText "maybe")
     = Ok (VText "maybe")
  /\ ~ (exists e, coerce_value example_runtime "BOOLEAN" (VText "maybe")
                  = Raise e).
Proof.
  repeat split. intros [e H]. discriminate H.
Qed.

(** C3, amended.  For a value that is not NULL and goes to BOOLEAN: a
    boolean passes through; an integer becomes whether it is not zero, so
    1 is true and 0 is false; a text made of digits is parsed and treated
    the same, so ["1"] is true and ["0"] is false; a text equal to
    [true] or [false], letter case apart, becomes that boolean.  Any
    other text that is not made of digits, [maybe] for one, is no error
    at this step: it is left as it is. *)
Theorem C3_boolean_coercion :
  (forall rt v, coerce_value rt "BOOLEAN" v = coerce_boolean v)
  /\ (forall b, coerce_boolean (VBool b) = Ok (VBool b))
  /\ (forall n, coerce_boolean (VInt n) = Ok (VBool (negb (n =? 0))))
  /\ coerce_boolean (VInt 1) = Ok (VBool true)
  /\ coerce_boolean (VInt 0) = Ok (VBool false)
  /\ (forall s n, Py.isdigit s = true -> Py.int_of_text s = Some n ->
        coerce_boolean (VText s) = Ok (VBool (negb (n =? 0))))
  /\ coerce_boolean (VText "1") = Ok (VBool true)
  /\ coerce_boolean (VText "0") = Ok (VBool false)
  /\ (forall s, lower s = "true" -> coerce_boolean (VText s) = Ok (VBool true))
  /\ (forall s, lower s = "false" ->
        coerce_boolean (VText s) = Ok (VBool false))
  /\ coerce_boolean (VText "TRUE") = Ok (VBool true)
  /\ (forall s, Py.isdigit s = false ->
        lower s <> "true" -> lower s <> "false" ->
        coerce_boolean (VText s) = Ok (VText s))
  /\ coerce_boolean (VText "maybe") = Ok (VText "maybe").
Proof.
  repeat split; try reflexivity.
  - intros s n D E. unfold coerce_boolean. now rewrite D, E.
  - intros s H. now apply (coerce_boolean_word s true).
  - intros s H. now apply (coerce_boolean_word s false).
  - apply coerce_boolean_other_text.
Qed.

(** ** Row coercion *)

Section Coercion.

Variable rt : Py.Runtime.

Lemma nth_error_set_nth_other {A} (l : list A) (i j : nat) (v : A) :
  i <> j -> nth_error (set_nth j v l) i = nth_error l i.
Proof.
  revert i j; induction l as [| x l IH]; intros i j Hij.
  - now destruct j.
  - destruct j as [| j], i as [| i]; simpl; try reflexivity; try congruence.
    apply IH. congruence.
Qed.

(** A cell that holds NULL when the loop over the columns starts still
    holds it when the loop is done. *)
Lemma coerce_columns_keeps_none (columns : list column) :
  forall (j : nat) (row out : list value) (i : nat),
    coerce_columns rt j columns row = Ok out ->
    nth_error row i = Some VNone ->
    nth_error out i = Some VNone.
Proof.
  induction columns as [| col rest IH]; intros j row out i Hrun Hi.
  - injection Hrun as <-. exact Hi.
  - cbn [coerce_columns] in Hrun.
    destruct (nth_error row j) as [v |] eqn:Hj; [| discriminate].
    assert (Hij : is_none v = false -> i <> j).
    { intros Hv ->. rewrite Hi in Hj. injection Hj as <-. discriminate. }
    destruct v; try (eapply IH; eassumption);
      (destruct (coerce_value rt (convert_type (col_type col)) _) as [v' | e];
       [| discriminate];
       apply (IH _ _ _ i Hrun);
       rewrite nth_error_set_nth_other; [exact Hi | now apply Hij]).
Qed.

(** A row of NULLs passes the loop unchanged, whatever the columns. *)
Lemma coerce_columns_all_none (columns : list column) :
  forall (j : nat) (row : list value),
    Forall (fun v => v = VNone) row ->
    (j + List.length columns <= List.length row)%nat ->
    coerce_columns rt j columns row = Ok row.
Proof.
  induction columns as [| col rest IH]; intros j row Hall Hlen;
    [reflexivity |].
  cbn [coerce_columns List.length] in *.
  destruct (nth_error row j) as [v |] eqn:Hj.
  - rewrite Forall_forall in Hall.
    rewrite (Hall v (nth_error_In _ _ Hj)).
    apply IH; [now apply Forall_forall | lia].
  - apply nth_error_None in Hj. lia.
Qed.

Lemma none_literal_of_none_text :
  forall row, Forall (fun v => v = VText "None") row ->
              Forall (fun v => v = VNone) (map none_literal row).
Proof.
  induction 1 as [| v row Hv _ IH]; constructor; [now subst | exact IH].
Qed.

(** C7. A cell of a fetched row that holds the text [None] is NULL in
    the values handed to the INSERT, whatever the column at that position
    and its type: line 98 turns it into NULL, the loop over the columns
    passes over a NULL without looking at the type, and when the row
    coerces, the NULL is still at that position.  A row made of such
    texts only, at least as long as the column list, does coerce: to
    NULLs followed by the configured defaults. *)
Theorem C7_none_text_becomes_null (columns : list column)
    (additional_columns : additional_columns_t) (row : list value) (i : nat) :
  nth_error row i = Some (VText "None") ->
  nth_error (map none_literal row) i = Some VNone
  /\ (forall col rest j r,
        nth_error r j = Some VNone ->
        coerce_columns rt j (col :: rest) r = coerce_columns rt (S j) rest r)
  /\ (forall out,
        coerce_row rt columns additional_columns row = Ok out ->
        nth_error out i = Some VNone)
  /\ (Forall (fun v => v = VText "None") row ->
      (List.length columns <= List.length row)%nat ->
      coerce_row rt columns additional_columns row
      = Ok (map (fun _ => VNone) row
            ++ map (fun e => default_value (snd e)) additional_columns)).
Proof.
  intros Hi.
  assert (Hnone : nth_error (map none_literal row) i = Some VNone).
  { rewrite nth_error_map, Hi. reflexivity. }
  split; [exact Hnone | split; [| split]].
  - intros col rest j r Hj. cbn [coerce_columns]. now rewrite Hj.
  - intros out Hrun. unfold coerce_row in Hrun.
    destruct (coerce_columns rt 0 columns (map none_literal row))
      as [r |] eqn:Hr; [| discriminate].
    injection Hrun as <-.
    pose proof (coerce_columns_keeps_none _ _ _ _ i Hr Hnone) as Hout.
    rewrite nth_error_app1; [exact Hout |].
    apply nth_error_Some. now rewrite Hout.
  - intros Hall Hlen. unfold coerce_row.
    rewrite coerce_columns_all_none.
    + f_equal. f_equal. clear -Hall.
      induction Hall as [| v r Hv _ IH]; [reflexivity |].
      cbn [map]. now rewrite IH, Hv.
    + now apply none_literal_of_none_text.
    + now rewrite length_map.
Qed.

(** Rounding towards zero, on the quotient the conversion computes. *)
Lemma quot_towards_zero (m d : Z) :
  0 < d ->
  Z.abs (Z.quot m d) * d <= Z.abs m < (Z.abs (Z.quot m d) + 1) * d
  /\ 0 <= Z.quot m d * m.
Proof.
  intros Hd.
  assert (Hpos : forall a, 0 <= a ->
            Z.quot a d * d <= a < (Z.quot a d + 1) * d /\ 0 <= Z.quot a d).
  { intros a Ha. rewrite Z.quot_div_nonneg by lia.
    pose proof (Z.div_mod a d ltac:(lia)) as E.
    pose proof (Z.mod_pos_bound a d Hd) as B.
    pose proof (Z.div_pos a d Ha Hd) as P. nia. }
  destruct (Z.le_gt_cases 0 m) as [Hm | Hm].
  - destruct (Hpos m Hm) as [B P].
    rewrite (Z.abs_eq m), (Z.abs_eq (Z.quot m d)) by lia. nia.
  - destruct (Hpos (- m) ltac:(lia)) as [B P].
    rewrite Z.quot_opp_l in B, P by lia.
    rewrite (Z.abs_neq m), (Z.abs_neq (Z.quot m d)) by lia. nia.
Qed.

Lemma integer_family_after_inference (src : Sqlite) (t c column_type : string)
    (resolved : string) :
  snd (determine_column_type src t c column_type) = Ok resolved ->
  In resolved ["INTEGER"; "BIGINT"; "NUMERIC"] ->
  In (convert_type column_type) ["INTEGER"; "NUMERIC"].
Proof.
  unfold determine_column_type.
  destruct (points_eqb (upper column_type) (code_points "INTEGER")) eqn:U;
    cbn [negb snd]; intros H Hin.
  - apply points_eqb_eq, upper_integer_matches in U.
    rewrite convert_type_as_specified. unfold mapDeclaredType_spec.
    rewrite U. now left.
  - injection H as <-.
    destruct Hin as [E | [E | [E | []]]]; rewrite <- E; cbn [In]; auto.
    exfalso. revert E. rewrite convert_type_as_specified.
    unfold mapDeclaredType_spec.
    repeat match goal with
           | |- context [if ?b then _ else _] => destruct b
           end; discriminate.
Qed.

(** C10. A float that goes to INTEGER, BIGINT or NUMERIC is no error: a
    finite float [m * 2^e] becomes the integer obtained by dropping its
    fractional part, towards zero, so 3.9 becomes 3; a text that is no
    number, at the same place, raises.  The branch is chosen from
    [convert_type] of the declared type, and whenever the type inferred
    for the column is one of the three, that is INTEGER or NUMERIC. *)
Theorem C10_float_is_truncated (col_type : string) (m e : Z) :
  In col_type ["INTEGER"; "BIGINT"; "NUMERIC"] ->
  (exists n,
      coerce_value rt col_type (VFloat (Finite m e)) = Ok (VInt n)
      /\ (0 <= e -> n = m * 2 ^ e)
      /\ (e < 0 ->
          Z.abs n * 2 ^ (- e) <= Z.abs m < (Z.abs n + 1) * 2 ^ (- e)
          /\ 0 <= n * m))
  /\ coerce_value rt col_type (VFloat float_3_9) = Ok (VInt 3)
  /\ coerce_value rt col_type (VText "abc") = Raise ValueError
  /\ (forall src t c column_type,
        snd (determine_column_type src t c column_type) = Ok col_type ->
        coerce_value rt (convert_type column_type) (VFloat float_3_9)
        = Ok (VInt 3)).
Proof.
  intros Hin.
  assert (Hint : forall v,
             coerce_value rt col_type v = res_map VInt (Py.int v)).
  { intros v. destruct Hin as [E | [E | [E | []]]]; now rewrite <- E. }
  repeat split.
  - exists (if 0 <=? e then m * 2 ^ e else Z.quot m (2 ^ (- e))).
    rewrite Hint. split; [reflexivity | split].
    + intros He. now rewrite (proj2 (Z.leb_le 0 e) He).
    + intros He. rewrite (proj2 (Z.leb_gt 0 e) He).
      apply quot_towards_zero. apply Z.pow_pos_nonneg; lia.
  - now rewrite Hint.
  - now rewrite Hint.
  - intros src t c column_type H.
    destruct (integer_family_after_inference _ _ _ _ _ H Hin)
      as [E | [E | []]]; now rewrite <- E.
Qed.

End Coercion.

(** A row with the text [None] under the INTEGER key column. *)
Lemma C7_none_text_witness :
  nth_error [VText "None"; VText "true"] 0 = Some (VText "None")
  /\ forall out,
       coerce_row example_runtime [id_column; flag_column] []
                  [VText "None"; VText "true"] = Ok out ->
       nth_error out 0 = Some VNone.
Proof.
  split; [reflexivity |].
  apply (C7_none_text_becomes_null example_runtime
           [id_column; flag_column] [] [VText "None"; VText "true"] 0).
  reflexivity.
Defined.

Lemma C10_float_witness :
  In "NUMERIC" ["INTEGER"; "BIGINT"; "NUMERIC"]
  /\ coerce_value example_runtime "NUMERIC" (VFloat float_3_9)
     = Ok (VInt 3).
Proof.
  split; [cbn; tauto |].
  apply (C10_float_is_truncated example_runtime "NUMERIC" 0 0).
  cbn; tauto.
Defined.

(** ** The CREATE TABLE statement *)

Section Strings.

Lemma append_assoc (a b c : string) : (a +++ b) +++ c = a +++ b +++ c.
Proof. induction a as [| x a IH]; simpl; [reflexivity | now rewrite IH]. Qed.

Lemma append_empty_r (a : string) : a +++ "" = a.
Proof. induction a as [| x a IH]; simpl; [reflexivity | now rewrite IH]. Qed.

Lemma last_char_append (a b : string) :
  Py.nonempty_string b = true -> last_char (a +++ b) = last_char b.
Proof.
  intros Hb. induction a as [| x a IH]; [reflexivity |].
  cbn [String.append last_char]. rewrite IH.
  destruct (a +++ b) eqn:E; [| reflexivity].
  destruct a; [| discriminate]. simpl in E. now subst b.
Qed.

Lemma ends_clean_nonempty (s : string) :
  ends_clean s = true -> Py.nonempty_string s = true.
Proof. now destruct s. Qed.

Lemma ends_clean_append (a b : string) :
  ends_clean b = true -> ends_clean (a +++ b) = true.
Proof.
  intros H. unfold ends_clean.
  now rewrite last_char_append by now apply ends_clean_nonempty.
Qed.

Lemma rstrip_ends_clean (s : string) :
  ends_clean s = true -> rstrip comma_or_space s = s.
Proof.
  induction s as [| x s IH]; [discriminate |].
  unfold ends_clean. cbn [last_char rstrip].
  destruct s as [| y s].
  - cbn [rstrip]. intros H. now rewrite (proj1 (negb_true_iff _) H).
  - intros H. rewrite (IH H). reflexivity.
Qed.

Lemma rstrip_strippable (s t : string) :
  all_chars comma_or_space t = true ->
  rstrip comma_or_space (s +++ t) = rstrip comma_or_space s.
Proof.
  intros Ht.
  assert (E : rstrip comma_or_space t = "").
  { induction t as [| x t IH]; [reflexivity |].
    cbn [all_chars] in Ht. apply andb_true_iff in Ht as [Hx Ht].
    cbn [rstrip]. now rewrite (IH Ht), Hx. }
  induction s as [| x s IH]; [exact E |].
  cbn [String.append rstrip]. now rewrite IH.
Qed.

Lemma ends_clean_join_last (sep : string) (pre : list string) (x : string) :
  ends_clean x = true -> ends_clean (join sep (pre ++ [x])) = true.
Proof.
  intros Hx. induction pre as [| p pre IH]; [exact Hx |].
  cbn [app join]. destruct (pre ++ [x]) eqn:E.
  - now destruct pre.
  - now repeat apply ends_clean_append.
Qed.

Lemma trailing_app (a b : list string) :
  trailing (a ++ b) = trailing a +++ trailing b.
Proof.
  induction a as [| x a IH]; [reflexivity |].
  cbn [app trailing]. now rewrite IH, !append_assoc.
Qed.

Lemma trailing_join (clauses : list string) :
  clauses <> [] -> trailing clauses = join ", " clauses +++ ", ".
Proof.
  induction clauses as [| c rest IH]; [congruence |]. intros _.
  cbn [trailing join]. destruct rest as [| c' rest].
  - reflexivity.
  - rewrite IH by discriminate. now rewrite !append_assoc.
Qed.

Lemma fold_left_trailing {A} (f : A -> string) (l : list A) (q : string) :
  fold_left (fun q x => q +++ f x +++ ", ") l q = q +++ trailing (map f l).
Proof.
  revert q; induction l as [| x l IH]; intros q; cbn [fold_left map trailing].
  - now rewrite append_empty_r.
  - now rewrite IH, !append_assoc.
Qed.

End Strings.

Section Statement.

Variable src : Sqlite.
Variable table_name : string.

(** The closed set of target types. *)
Lemma determine_column_type_names (c column_type resolved : string) :
  snd (determine_column_type src table_name c column_type) = Ok resolved ->
  In resolved ["INTEGER"; "BIGINT"; "NUMERIC"; "TEXT"; "BYTEA";
               "DOUBLE PRECISION"; "BOOLEAN"].
Proof.
  unfold determine_column_type.
  destruct (negb (points_eqb (upper column_type) (code_points "INTEGER")));
    cbn [snd].
  - intros H. injection H as <-.
    rewrite convert_type_as_specified. unfold mapDeclaredType_spec.
    repeat match goal with
           | |- context [if ?b then _ else _] => destruct b
           end; cbn [In]; tauto.
  - destruct (select_column src table_name c) as [fetched | e];
      [| discriminate].
    unfold resolve_width.
    destruct (filter _ _); [intros H; injection H as <-; cbn; tauto |].
    repeat match goal with
           | |- context [match ?x with _ => _ end] => destruct x
           end; intros H; try discriminate; injection H as <-; cbn; tauto.
Qed.

Lemma type_name_ends_clean (resolved : string) :
  In resolved ["INTEGER"; "BIGINT"; "NUMERIC"; "TEXT"; "BYTEA";
               "DOUBLE PRECISION"; "BOOLEAN"] ->
  ends_clean resolved = true.
Proof. cbn [In]. intuition (subst; reflexivity). Qed.

Lemma column_clause_shape (pg_col_type : string) (c : column) :
  column_clause pg_col_type c
  = col_name c +++ " " +++ pg_col_type
    +++ (if truthy (col_pk c) then " PRIMARY KEY" else "")
    +++ (if truthy (col_notnull c) then " NOT NULL" else "")
    +++ (match col_dflt_value c with
         | Some d => if Py.nonempty_string d then " DEFAULT " +++ d else ""
         | None => ""
         end).
Proof.
  unfold column_clause, constraints_of, truthy_text.
  destruct (truthy (col_pk c)), (truthy (col_notnull c)),
    (col_dflt_value c) as [[| x d] |]; reflexivity.
Qed.

Lemma column_clause_ends_clean (pg_col_type : string) (c : column) :
  ends_clean pg_col_type = true -> default_ends_clean c = true ->
  ends_clean (column_clause pg_col_type c) = true.
Proof.
  intros Hty Hd. rewrite column_clause_shape.
  unfold default_ends_clean in Hd.
  destruct (col_dflt_value c) as [d |];
    [destruct (Py.nonempty_string d) |];
    destruct (truthy (col_pk c)), (truthy (col_notnull c));
    rewrite ?append_empty_r;
    repeat first [exact Hty | exact Hd | reflexivity
                 | apply ends_clean_append].
Qed.

Lemma extra_clause_ends_clean (e : string * AdditionalColumn) :
  ends_clean (extra_clause e) = true.
Proof.
  unfold extra_clause. repeat apply ends_clean_append.
  apply type_name_ends_clean.
  rewrite convert_type_as_specified. unfold mapDeclaredType_spec.
  repeat match goal with
         | |- context [if ?b then _ else _] => destruct b
         end; cbn [In]; tauto.
Qed.

Lemma unique_clause_ends_clean (u : string * list string) :
  ends_clean (unique_clause u) = true.
Proof. unfold unique_clause. now repeat apply ends_clean_append. Qed.

Lemma add_columns_trailing (resolved : column -> string)
    (columns : list column) :
  (forall c, In c columns ->
     snd (determine_column_type src table_name (col_name c) (col_type c))
     = Ok (resolved c)) ->
  forall query,
    add_columns src table_name columns query
    = Ok (query
          +++ trailing (map (fun c => column_clause (resolved c) c) columns)).
Proof.
  induction columns as [| c rest IH]; intros H query.
  - cbn. now rewrite append_empty_r.
  - cbn [add_columns map trailing].
    rewrite (H c (or_introl eq_refl)).
    rewrite IH by (intros c' Hc'; apply H; now right).
    now rewrite !append_assoc.
Qed.

End Statement.

(** Names that are strings all pass the [join]. *)
Lemma strs_of_strings (names : list string) : strs names = Some names.
Proof.
  induction names as [| n l IH]; [reflexivity |].
  cbn [strs]. now rewrite IH.
Qed.

Lemma add_unique_constraints_trailing
    (unique_constraints : list (string * list string)) :
  forall query,
    add_unique_constraints unique_constraints query
    = Ok (query +++ trailing (map unique_clause unique_constraints)).
Proof.
  induction unique_constraints as [| [index_name names] rest IH];
    intros query.
  - cbn. now rewrite append_empty_r.
  - cbn [add_unique_constraints map trailing].
    rewrite strs_of_strings, IH. now rewrite !append_assoc.
Qed.

Lemma last_clean_app_r (l1 l2 : list string) :
  last_clean l2 -> last_clean (l1 ++ l2).
Proof.
  intros (pre & x & -> & Hx). exists (l1 ++ pre), x.
  now rewrite app_assoc.
Qed.

Lemma last_clean_map {A} (f : A -> string) (l : list A) :
  l <> [] -> (forall a, ends_clean (f a) = true) -> last_clean (map f l).
Proof.
  intros Hl Hf. destruct (exists_last Hl) as (pre & a & ->).
  exists (map f pre), (f a). now rewrite map_app.
Qed.

Lemma rstrip_statement (header : string) (clauses : list string) :
  ends_clean header = true ->
  clauses = [] \/ last_clean clauses ->
  rstrip comma_or_space (header +++ trailing clauses)
  = header +++ join ", " clauses.
Proof.
  intros Hh [-> | (pre & x & -> & Hx)].
  - cbn [trailing join]. rewrite append_empty_r.
    now apply rstrip_ends_clean.
  - rewrite trailing_join by now destruct pre.
    rewrite <- append_assoc, rstrip_strippable by reflexivity.
    apply rstrip_ends_clean, ends_clean_append.
    now apply ends_clean_join_last.
Qed.

Section Builder.

Variable src : Sqlite.
Variable table_name : string.
Variable columns : list column.
Variable additional_columns : additional_columns_t.
Variable unique_constraints : list (string * list string).
Variable resolved : column -> string.

Hypothesis types_resolve :
  forall c, In c columns ->
    snd (determine_column_type src table_name (col_name c) (col_type c))
    = Ok (resolved c).

(** The clauses, in the order they are appended. *)
Let clauses : list string :=
  map (fun c => column_clause (resolved c) c) columns
  ++ map extra_clause additional_columns
  ++ map unique_clause unique_constraints.

Lemma create_table_query_appends :
  create_table_query src table_name columns additional_columns
                     unique_constraints
  = Ok (rstrip comma_or_space
          (("CREATE TABLE IF NOT EXISTS " +++ table_name +++ " (")
           +++ trailing clauses)
        +++ ");").
Proof.
  unfold create_table_query.
  rewrite (add_columns_trailing src table_name resolved columns types_resolve).
  rewrite add_unique_constraints_trailing, !fold_left_trailing.
  rewrite (append_assoc _ (trailing _) (trailing _)).
  rewrite (append_assoc _ (trailing _) (trailing _ +++ trailing _)).
  now rewrite <- !trailing_app.
Qed.

Lemma clauses_end_clean :
  (additional_columns = [] -> unique_constraints = [] ->
   forall pre c, columns = pre ++ [c] -> default_ends_clean c = true) ->
  clauses = [] \/ last_clean clauses.
Proof.
  intros Hlast. unfold clauses.
  destruct unique_constraints as [| u us].
  - destruct additional_columns as [| e es].
    + destruct columns as [| c cs] eqn:Ecols; [now left | right].
      destruct (@exists_last _ (c :: cs)) as (pre & c' & E);
        [discriminate |].
      rewrite E in *. cbn [map app]. rewrite app_nil_r, map_app.
      exists (map (fun c => column_clause (resolved c) c) pre),
        (column_clause (resolved c') c').
      split; [reflexivity |].
      apply column_clause_ends_clean.
      * eapply type_name_ends_clean, determine_column_type_names.
        apply types_resolve. apply in_elt.
      * now apply (Hlast eq_refl eq_refl pre).
    + right. cbn [map]. rewrite app_nil_r. apply last_clean_app_r.
      apply (last_clean_map extra_clause (e :: es));
        [discriminate | apply extra_clause_ends_clean].
  - right. do 2 apply last_clean_app_r.
    apply (last_clean_map unique_clause (u :: us));
      [discriminate | apply unique_clause_ends_clean].
Qed.

End Builder.

(** C8. When the type of every column resolves, [create_table_query]
    gives one statement [CREATE TABLE IF NOT EXISTS <table> (...);] whose
    clauses, separated by a comma and a space, are: the native columns in
    source order, each as name, type, then PRIMARY KEY, NOT NULL and
    DEFAULT with the literal as it is, in that order and each only when
    it applies; then each extra column as name and type; then one UNIQUE
    clause per unique constraint with its columns in recorded order.
    The clauses are appended each with its separator and the last
    separator is taken off by [rstrip]; that leaves the last clause whole
    as soon as it does not end in a comma or a space, which only the
    default literal of a last native column could. *)
Theorem C8_create_table_statement (src : Sqlite) (table_name : string)
    (columns : list column) (additional_columns : additional_columns_t)
    (unique_constraints : list (string * list string))
    (resolved : column -> string) :
  (forall c, In c columns ->
     snd (determine_column_type src table_name (col_name c) (col_type c))
     = Ok (resolved c)) ->
  let clauses :=
    map (fun c => column_clause (resolved c) c) columns
    ++ map extra_clause additional_columns
    ++ map unique_clause unique_constraints in
  create_table_query src table_name columns additional_columns
                     unique_constraints
  = Ok (rstrip comma_or_space
          (("CREATE TABLE IF NOT EXISTS " +++ table_name +++ " (")
           +++ trailing clauses)
        +++ ");")
  /\ ((additional_columns = [] -> unique_constraints = [] ->
       forall pre c, columns = pre ++ [c] -> default_ends_clean c = true) ->
      create_table_query src table_name columns additional_columns
                         unique_constraints
      = Ok ("CREATE TABLE IF NOT EXISTS " +++ table_name +++ " ("
            +++ join ", " clauses +++ ");"))
  /\ (forall pg_col_type c,
        column_clause pg_col_type c
        = col_name c +++ " " +++ pg_col_type
          +++ (if truthy (col_pk c) then " PRIMARY KEY" else "")
          +++ (if truthy (col_notnull c) then " NOT NULL" else "")
          +++ (match col_dflt_value c with
               | Some d =>
                   if Py.nonempty_string d then " DEFAULT " +++ d else ""
               | None => ""
               end))
  /\ (forall name info,
        extra_clause (name, info) = name +++ " " +++ convert_type (type info))
  /\ (forall index_name unique_columns,
        unique_clause (index_name, unique_columns)
        = "UNIQUE (" +++ join ", " unique_columns +++ ")").
Proof.
  intros Hty clauses.
  pose proof (create_table_query_appends src table_name columns
                additional_columns unique_constraints resolved Hty) as E.
  split; [exact E | split];
    [| split; [apply column_clause_shape | split; reflexivity]].
  intros Hlast. rewrite E.
  rewrite <- (append_assoc "CREATE TABLE IF NOT EXISTS " table_name " (").
  rewrite rstrip_statement.
  - now rewrite !append_assoc.
  - now apply ends_clean_append.
  - exact (clauses_end_clean src table_name columns additional_columns
             unique_constraints resolved Hty Hlast).
Qed.

(** The table of the round trip, with the extra column [src] and the
    unique index on [(name, id)], whose keys both have a name. *)
Lemma C8_people_statement_witness :
  (forall c, In c people_columns ->
     snd (determine_column_type people_source "people"
            (col_name c) (col_type c))
     = Ok (convert_type (col_type c)))
  /\ get_unique_constraints people_source "people"
     = [("people_name_id", [Some "name"; Some "id"])]
  /\ create_table_query people_source "people" people_columns legacy_column
                        [("people_name_id", ["name"; "id"])]
     = Ok "CREATE TABLE IF NOT EXISTS people (id INTEGER PRIMARY KEY, name TEXT, flag BOOLEAN, src TEXT, UNIQUE (name, id));".
Proof.
  assert (H : forall c, In c people_columns ->
            snd (determine_column_type people_source "people"
                   (col_name c) (col_type c))
            = Ok (convert_type (col_type c))).
  { intros c [<- | [<- | [<- | []]]]; reflexivity. }
  split; [exact H | split; [reflexivity |]].
  refine (proj1 (proj2 (C8_create_table_statement people_source "people"
                          people_columns legacy_column
                          [("people_name_id", ["name"; "id"])]
                          (fun c => convert_type (col_type c)) H)) _).
  discriminate.
Defined.

(** ** The row loop when nothing fails *)

Section Copy.

Variable rt : Py.Runtime.
Variable accepts : list event -> event -> bool.
Variable columns : list column.
Variable additional_columns : additional_columns_t.

Hypothesis accepts_all : forall h ev, accepts h ev = true.

Lemma insert_rows_accepting (coerced : list value -> list value)
    (query : string) (rows : list (list value)) :
  (forall row, In row rows ->
     coerce_row rt columns additional_columns row = Ok (coerced row)) ->
  forall j h,
    insert_rows rt accepts query columns additional_columns j rows h
    = (h ++ copy_events coerced query j rows, inl tt).
Proof.
  induction rows as [| row rest IH]; intros Hrows j h.
  - cbn. now rewrite app_nil_r.
  - cbn [insert_rows copy_events].
    unfold bind at 1, try_except, insert_row, bind, lift, call, ret.
    rewrite (Hrows row (or_introl eq_refl)), accepts_all.
    destruct (j mod 16384 =? 0); rewrite ?accepts_all;
      rewrite IH by (intros r Hr; apply Hrows; now right);
      cbn [app]; now rewrite <- !app_assoc.
Qed.

End Copy.

Lemma commits_from (coerced : list value -> list value) (query : string)
    (rows : list (list value)) :
  forall j, 0 <= j ->
    Z.of_nat (List.length (filter is_commit (copy_events coerced query j rows)))
    = (j + Z.of_nat (List.length rows) + 16383) / 16384
      - (j + 16383) / 16384.
Proof.
  induction rows as [| row rest IH]; intros j Hj.
  - cbn [List.length copy_events filter]. rewrite Z.add_0_r. lia.
  - cbn [copy_events filter is_commit]. rewrite filter_app.
    rewrite length_app, Nat2Z.inj_add, (IH (j + 1)) by lia.
    cbn [List.length]. rewrite Nat2Z.inj_succ.
    replace (j + Z.succ (Z.of_nat (List.length rest)) + 16383)
      with (j + 1 + Z.of_nat (List.length rest) + 16383) by lia.
    destruct (Z.eqb_spec (j mod 16384) 0) as [E | E];
      cbn [filter is_commit List.length];
      generalize dependent (Z.of_nat (List.length rest)); intros n;
      intros; Z.div_mod_to_equations; lia.
Qed.

(** C4.  With a target that accepts every call and rows that all coerce,
    the calls of [insert_data] are, for each row in turn, its INSERT,
    followed by a COMMIT exactly when the row's number counted from zero
    is a multiple of 16384, and after the last row one more COMMIT.  So
    the first row is always followed by a COMMIT, and [n] rows give
    [ceil (n / 16384) + 1] commits: the commits of the loop come after
    rows 1, 16385, 32769, ... and not after rows 16384, 32768, ... *)
Theorem C4_commit_positions (rt : Py.Runtime)
    (accepts : list event -> event -> bool) (table_name : string)
    (columns : list column) (additional_columns : additional_columns_t)
    (rows : list (list value)) (coerced : list value -> list value)
    (h : list event) :
  (forall h ev, accepts h ev = true) ->
  (forall row, In row rows ->
     coerce_row rt columns additional_columns row = Ok (coerced row)) ->
  let query := insert_query table_name columns additional_columns in
  insert_data rt accepts table_name columns rows additional_columns h
  = (h ++ copy_events coerced query 0 rows ++ [Commit], inl tt)
  /\ (forall row rest, rows = row :: rest ->
        copy_events coerced query 0 rows
        = Execute query (Some (coerced row)) :: Commit
            :: copy_events coerced query 1 rest)
  /\ Z.of_nat (List.length (filter is_commit
                              (copy_events coerced query 0 rows ++ [Commit])))
     = (Z.of_nat (List.length rows) + 16383) / 16384 + 1.
Proof.
  intros Hacc Hrows query. repeat split.
  - unfold insert_data, bind.
    rewrite (insert_rows_accepting rt accepts columns additional_columns
               Hacc coerced _ rows Hrows).
    unfold call. rewrite Hacc. now rewrite <- app_assoc.
  - intros row rest ->. reflexivity.
  - rewrite filter_app, length_app, Nat2Z.inj_add.
    rewrite commits_from by lia.
    change (Z.of_nat (List.length (filter is_commit [Commit]))) with 1.
    change ((0 + 16383) / 16384) with 0.
    now rewrite Z.add_0_l, Z.sub_0_r.
Qed.

(** The two rows of [people]: INSERT, COMMIT, INSERT, COMMIT. *)
Lemma C4_two_rows_witness :
  (forall h ev, accept_all h ev = true)
  /\ (forall row, In row people_rows ->
        coerce_row example_runtime people_columns [] row
        = Ok (coerced_or_empty example_runtime people_columns [] row))
  /\ insert_data example_runtime accept_all "people" people_columns
                 people_rows [] []
     = ([Execute "INSERT INTO people (id, name, flag) VALUES (%s, %s, %s)"
                 (Some [VInt 1; VText "a"; VBool true]);
         Commit;
         Execute "INSERT INTO people (id, name, flag) VALUES (%s, %s, %s)"
                 (Some [VInt 2; VText "b"; VBool false]);
         Commit], inl tt).
Proof.
  assert (H1 : forall h ev, accept_all h ev = true) by reflexivity.
  assert (H2 : forall row, In row people_rows ->
             coerce_row example_runtime people_columns [] row
             = Ok (coerced_or_empty example_runtime people_columns [] row)).
  { intros row [<- | [<- | []]]; reflexivity. }
  split; [exact H1 | split; [exact H2 |]].
  exact (proj1 (C4_commit_positions example_runtime accept_all "people"
                  people_columns [] people_rows
                  (coerced_or_empty example_runtime people_columns [])
                  [] H1 H2)).
Defined.

(** ** Which columns the copy uses *)

Lemma plan_tables_columns (src : Sqlite)
    (additional_columns : additional_columns_t) (tables : list string) :
  forall columns0 queries0 columns queries,
    plan_tables src additional_columns tables columns0 queries0
    = Ok (columns, queries) ->
    columns = match tables with
              | [] => columns0
              | _ => get_table_schema src (last tables "")
              end.
Proof.
  induction tables as [| t rest IH]; intros c0 q0 cols qs H.
  - now injection H as <- _.
  - cbn [plan_tables] in H.
    destruct (create_table_query src t _ _ _) as [q | e]; [| discriminate].
    apply IH in H. destruct rest; exact H.
Qed.

(** C1.  The planning loop leaves in [columns] the schema of the last
    table, and the copy of every table reads that one list.  On the
    source of two tables, the row of [notes] is inserted under the
    column names of [people] and coerced by their types: its first field,
    a text, becomes an integer and its third a boolean. *)
Theorem C1_copy_uses_last_table_columns :
  (forall src additional_columns tables columns queries,
      tables <> [] ->
      plan_tables src additional_columns tables [] [] = Ok (columns, queries) ->
      columns = get_table_schema src (last tables ""))
  /\ get_table_schema notes_people_source "notes" = notes_columns
  /\ run example_runtime accept_all notes_people_source [] "y"
     = ([Execute
           "CREATE TABLE IF NOT EXISTS notes (ref TEXT, body TEXT, pinned TEXT);"
           None;
         Execute "INSERT INTO notes (id, name, flag) VALUES (%s, %s, %s)"
                 (Some [VInt 7; VText "hello"; VBool true]);
         Commit; Commit;
         Execute
           "CREATE TABLE IF NOT EXISTS people (id INTEGER PRIMARY KEY, name TEXT, flag BOOLEAN);"
           None;
         Execute "INSERT INTO people (id, name, flag) VALUES (%s, %s, %s)"
                 (Some [VInt 1; VText "a"; VBool true]);
         Commit;
         Execute "INSERT INTO people (id, name, flag) VALUES (%s, %s, %s)"
                 (Some [VInt 2; VText "b"; VBool false]);
         Commit; Close], inl tt).
Proof.
  repeat split.
  intros src extras tables columns queries Hne H.
  apply plan_tables_columns in H. now destruct tables.
Qed.

(** ** The run, step by step *)

Lemma print_queries_writes_all (queries : list string) (h : list event) :
  print_queries writes_all queries h = (h, inl tt).
Proof. induction queries as [| q l IH]; [reflexivity | exact IH]. Qed.

Lemma run_unfolded (rt : Py.Runtime) (accepts : list event -> event -> bool)
    (src : Sqlite) (additional_columns : additional_columns_t)
    (answer : string) :
  run rt accepts src additional_columns answer
  = match plan_tables src additional_columns (get_tables src) [] [] with
    | Raise e => ([], inr (Uncaught e))
    | Ok (columns, queries) =>
        if negb (answer =? "y")%string then ([Close], inl tt)
        else
          match copy_tables rt accepts src additional_columns columns
                            (combine (get_tables src) queries) [] with
          | (h, inl _) => (h ++ [Close], inl tt)
          | (h, inr s) => (h, inr s)
          end
    end.
Proof.
  unfold run, sqlite_to_postgresql, bind, lift, ret, raise, close.
  cbn [console_print writes_all].
  destruct (plan_tables _ _ _ _ _) as [[columns queries] | e];
    [| reflexivity].
  rewrite print_queries_writes_all.
  destruct (negb (answer =? "y")%string); [reflexivity |].
  now destruct (copy_tables _ _ _ _ _ _ _) as [h [[] | s]].
Qed.



(** ** The error path *)

Section Abort.

Variable rt : Py.Runtime.
Variable accepts : list event -> event -> bool.









(** What the [try] does with a row that fails: the report; then, when
    the console wrote it, ROLLBACK and [exit(1)]. *)
Lemma try_row_fails (body : M unit) (row : list value) (h h' : list event)
    (e : exn) :
  body h = (h', inr (Uncaught e)) ->
  try_except body (on_error rt accepts row) h
  = match Py.print_error rt h' row e with
    | None =>
        (h' ++ [Rollback],
         inr (if accepts h' Rollback then SystemExit 1
              else Uncaught DatabaseError))
    | Some e' => (h', inr (Uncaught e'))
    end.
Proof.
  intros H. unfold try_except, on_error, report, bind, call, exit.
  rewrite H. destruct (Py.print_error rt h' row e); [reflexivity |].
  now destruct (accepts h' Rollback).
Qed.









End Abort.

Section Success.

Variable rt : Py.Runtime.
Variable accepts : list event -> event -> bool.
Variable src : Sqlite.
Variable columns : list column.
Variable additional_columns : additional_columns_t.

Hypothesis accepts_all : forall h ev, accepts h ev = true.



End Success.



(** * Further properties of the code *)

(** ** The type table *)

Section Table.

(** A map on characters that moves no character into or out of the
    case class of an ASCII letter. *)
Variable f : ascii -> ascii.
Hypothesis f_keeps_same :
  forall a c, is_letter a = true -> same_letter a (f c) = same_letter a c.
Hypothesis f_keeps_letters : forall c, is_letter (f c) = is_letter c.




End Table.









Lemma starts_with_ci_append (w s t : string) :
  (String.length w <= String.length s)%nat ->
  starts_with_ci w (s +++ t) = starts_with_ci w s.
Proof.
  revert s; induction w as [| a w IH]; intros [| c s] H; cbn in *;
    try reflexivity; try lia.
  rewrite IH by lia. reflexivity.
Qed.

Lemma letters_then_append (k : nat) (w s t : string) :
  (k + String.length w <= String.length s)%nat ->
  letters_then k w (s +++ t) = letters_then k w s.
Proof.
  revert s; induction k as [| k IH]; intros s H; cbn [letters_then];
    rewrite starts_with_ci_append by lia.
  - reflexivity.
  - destruct s as [| c s]; [cbn in H; lia |].
    cbn [String.append]. rewrite IH by (cbn in H; lia). reflexivity.
Qed.

(** X2.  Only the first seven characters of a declared type count:
    whatever follows them (a length, a precision, a second word) does not
    change the mapped type. *)
Theorem convert_type_reads_seven_characters (s t : string) :
  (7 <= String.length s)%nat ->
  convert_type (s +++ t) = convert_type s.
Proof.
  intros H. rewrite !convert_type_as_specified.
  unfold mapDeclaredType_spec, integer_pattern.
  rewrite letters_then_append by (cbn; lia).
  now rewrite !starts_with_ci_append by (cbn; lia).
Qed.

Lemma convert_type_seven_witness :
  (7 <= String.length "VARCHAR")%nat
  /\ convert_type ("VARCHAR" +++ "(255)") = convert_type "VARCHAR".
Proof.
  split; [cbn; lia |].
  apply (convert_type_reads_seven_characters "VARCHAR" "(255)").
  cbn; lia.
Defined.

Lemma starts_with_ci_cons_inv (a : ascii) (w s : string) :
  starts_with_ci (String a w) s = true ->
  exists c s', s = String c s'
               /\ upper_ascii c = upper_ascii a
               /\ starts_with_ci w s' = true.
Proof.
  destruct s as [| c s]; [discriminate |]. cbn [starts_with_ci].
  intros H. apply andb_true_iff in H as [Hc Hs].
  exists c, s. repeat split; [| exact Hs].
  unfold same_letter in Hc. now apply Ascii.eqb_eq in Hc.
Qed.

(** [Hw] says that a word is a prefix of the string, [Ho] that another
    pattern matches it: the two disagree on one of the first characters. *)
Ltac clash Hw Ho :=
  repeat (apply starts_with_ci_cons_inv in Hw;
          destruct Hw as (? & ? & -> & ? & Hw));
  unfold integer_pattern in Ho;
  cbn [letters_then starts_with_ci] in Ho; unfold same_letter in Ho;
  repeat match goal with
         | E : upper_ascii ?c = _ |- _ => rewrite E in Ho; clear E
         end;
  repeat match type of Ho with
         | context [is_letter ?c] => destruct (is_letter c)
         end;
  cbn in Ho; discriminate Ho.

(** No string is matched by two entries of the table that map to
    different types. *)
Lemma type_mapping_agrees (s : string) (e1 e2 : regex * string) :
  In e1 type_mapping -> In e2 type_mapping ->
  entry_matches s e1 = true -> entry_matches s e2 = true ->
  snd e1 = snd e2.
Proof.
  unfold entry_matches, type_mapping. cbn [In].
  intros H1 H2 M1 M2.
  repeat match goal with
         | H : _ \/ _ |- _ => destruct H as [H | H]
         | H : False |- _ => destruct H
         end; subst e1 e2; cbn [fst snd] in *; try reflexivity; exfalso;
    rewrite ?re_match_integer_pattern, ?re_match_alt in M1;
    rewrite ?re_match_integer_pattern, ?re_match_alt in M2;
    rewrite ?re_match_word in M1; rewrite ?re_match_word in M2;
    repeat match goal with
           | H : _ || _ = true |- _ => apply orb_true_iff in H as [H | H]
           end;
    first [ clash M1 M2 | clash M2 M1 ].
Qed.

Section FirstMatch.

Variable s : string.

Lemma first_match_some (table : list (regex * string)) (t : string) :
  first_match table s = Some t ->
  exists e, In e table /\ entry_matches s e = true /\ snd e = t.
Proof.
  induction table as [| [p t'] rest IH]; [discriminate |].
  cbn [first_match]. destruct (re_match p s true) eqn:M.
  - intros H. injection H as <-. exists (p, t'). now repeat split; [left |..].
  - intros H. destruct (IH H) as (e & Hin & He). exists e. split; [now right | exact He].
Qed.

Lemma first_match_finds (table : list (regex * string)) (e : regex * string) :
  In e table -> entry_matches s e = true ->
  exists t, first_match table s = Some t.
Proof.
  induction table as [| [p t'] rest IH]; [intros [] |].
  intros [<- | Hin] M; cbn [first_match].
  - unfold entry_matches in M; cbn [fst] in M. rewrite M. now exists t'.
  - destruct (re_match p s true); [now exists t' | now apply IH].
Qed.

Lemma first_match_by_membership (table : list (regex * string)) (t : string) :
  agreeing s table ->
  first_match table s = Some t
  <-> exists e, In e table /\ entry_matches s e = true /\ snd e = t.
Proof.
  intros A. split; [apply first_match_some |].
  intros (e & Hin & M & <-).
  destruct (first_match_finds table e Hin M) as [t' H]. rewrite H. f_equal.
  destruct (first_match_some _ _ H) as (e' & Hin' & M' & <-).
  now apply A.
Qed.

End FirstMatch.

(** X3.  The entries of the table exclude one another: no declared type
    is matched by two entries that map to different types.  So the order
    in which the table is tried does not matter: listed in any other
    order it maps every declared type as [convert_type] does. *)
Theorem type_table_order_is_immaterial :
  (forall s e1 e2,
      In e1 type_mapping -> In e2 type_mapping ->
      entry_matches s e1 = true -> entry_matches s e2 = true ->
      snd e1 = snd e2)
  /\ (forall table s,
        Permutation type_mapping table ->
        first_match table s = first_match type_mapping s).
Proof.
  split; [exact type_mapping_agrees |].
  intros table s P.
  assert (A : agreeing s type_mapping)
    by (intros e1 e2; apply type_mapping_agrees).
  assert (A' : agreeing s table).
  { intros e1 e2 H1 H2. apply A; eapply Permutation_in;
      try eassumption; now apply Permutation_sym. }
  assert (E : forall t, first_match table s = Some t
                        <-> first_match type_mapping s = Some t).
  { intros t. rewrite (first_match_by_membership s table t A').
    rewrite (first_match_by_membership s type_mapping t A).
    split; intros (e & Hin & H); exists e; (split; [| exact H]);
      eapply Permutation_in; try eassumption. now apply Permutation_sym. }
  destruct (first_match table s) as [t |].
  - symmetry. now apply E.
  - destruct (first_match type_mapping s) as [t |]; [| reflexivity].
    now apply E.
Qed.

(** ** Width inference *)

Lemma null_only_none_exceeds (bound : Z) (samples : list (option Z)) :
  forallb (fun o => match o with Some _ => false | None => true end) samples
  = true ->
  existsb (exceeds bound) samples = false.
Proof.
  induction samples as [| [n |] l IH]; cbn; auto. discriminate.
Qed.

Lemma existsb_permutation {A} (p : A -> bool) (l1 l2 : list A) :
  Permutation l1 l2 -> existsb p l1 = existsb p l2.
Proof.
  induction 1 as [| x l l' _ IH | x y l | l l' l'' _ IH1 _ IH2]; cbn.
  - reflexivity.
  - now rewrite IH.
  - now destruct (p x), (p y).
  - now rewrite IH1.
Qed.

Lemma forallb_permutation {A} (p : A -> bool) (l1 l2 : list A) :
  Permutation l1 l2 -> forallb p l1 = forallb p l2.
Proof.
  induction 1 as [| x l l' _ IH | x y l | l l' l'' _ IH1 _ IH2]; cbn.
  - reflexivity.
  - now rewrite IH.
  - now destruct (p x), (p y).
  - now rewrite IH1.
Qed.

(** X4.  On sampled integers the inferred width is that of the widest
    sample: the width of two sample lists put together is the wider of
    their widths, and the order in which the samples are read does not
    matter. *)
Theorem resolve_width_is_the_widest :
  (forall a b,
      width_rank (resolve_width (map sampled (a ++ b)))
      = Nat.max (width_rank (resolve_width (map sampled a)))
                (width_rank (resolve_width (map sampled b))))
  /\ (forall a b,
        Permutation a b ->
        resolve_width (map sampled a) = resolve_width (map sampled b)).
Proof.
  split.
  - intros a b. rewrite !resolve_width_sampled.
    rewrite forallb_app, !existsb_app.
    pose proof (null_only_none_exceeds (2 ^ 63 - 1) a) as A63.
    pose proof (null_only_none_exceeds (2 ^ 31 - 1) a) as A31.
    pose proof (null_only_none_exceeds (2 ^ 63 - 1) b) as B63.
    pose proof (null_only_none_exceeds (2 ^ 31 - 1) b) as B31.
    destruct (forallb _ a), (forallb _ b);
      try rewrite (A63 eq_refl); try rewrite (A31 eq_refl);
      try rewrite (B63 eq_refl); try rewrite (B31 eq_refl);
      cbn [andb orb];
      repeat match goal with
             | |- context [existsb ?p ?l] => destruct (existsb p l)
             end; reflexivity.
  - intros a b P. rewrite !resolve_width_sampled.
    rewrite (forallb_permutation _ a b P).
    now rewrite !(existsb_permutation _ a b P).
Qed.

Lemma any_magnitude_gt_app (bound : Z) (l1 l2 : list value) :
  any_magnitude_gt bound (l1 ++ l2)
  = match any_magnitude_gt bound l1 with
    | Ok false => any_magnitude_gt bound l2
    | r => r
    end.
Proof.
  induction l1 as [| v l1 IH]; cbn [app any_magnitude_gt].
  - now destruct (any_magnitude_gt bound l2) as [[] |].
  - destruct (magnitude_gt bound v) as [[] |]; auto.
Qed.

(** X5.  A text among the values of an INTEGER column makes the width
    inference raise [TypeError], unless a value read before it already
    exceeds 2^63-1: then the scan stops there and the type is NUMERIC. *)
Theorem resolve_width_on_a_text_sample (pre : list (option Z)) (s : string)
    (post : list value) :
  ((forall n, In (Some n) pre -> Z.abs n <= 2 ^ 63 - 1) ->
   resolve_width (map sampled pre ++ VText s :: post) = Raise TypeError)
  /\ ((exists n, In (Some n) pre /\ 2 ^ 63 - 1 < Z.abs n) ->
      resolve_width (map sampled pre ++ VText s :: post) = Ok "NUMERIC").
Proof.
  assert (E : resolve_width (map sampled pre ++ VText s :: post)
              = if existsb (exceeds (2 ^ 63 - 1)) pre
                then Ok "NUMERIC" else Raise TypeError).
  { unfold resolve_width. rewrite filter_app.
    cbn [filter is_none negb].
    rewrite !any_magnitude_gt_app, any_magnitude_gt_sampled.
    destruct (filter _ (map sampled pre)); cbn [app];
      now destruct (existsb (exceeds (2 ^ 63 - 1)) pre). }
  split; intros H; rewrite E.
  - now rewrite (exceeds_none _ _ H).
  - now rewrite (exceeds_some _ _ H).
Qed.

Lemma any_magnitude_gt_raises (bound : Z) (l : list value) (e : exn) :
  any_magnitude_gt bound l = Raise e -> e = TypeError.
Proof.
  induction l as [| v l IH]; [discriminate |]. cbn [any_magnitude_gt].
  destruct (magnitude_gt bound v) as [[] | e'] eqn:M; auto; try discriminate.
  intros H. injection H as <-. destruct v; cbn in M; congruence.
Qed.

Lemma resolve_width_raises (fetched : list value) (e : exn) :
  resolve_width fetched = Raise e -> e = TypeError.
Proof.
  unfold resolve_width. intros D.
  destruct (filter _ _); [discriminate |].
  destruct (any_magnitude_gt (2 ^ 63 - 1) _) as [[] | e1] eqn:A1;
    try discriminate.
  - destruct (any_magnitude_gt (2 ^ 31 - 1) _) as [[] | e2] eqn:A2;
      try discriminate.
    injection D as <-. now apply any_magnitude_gt_raises in A2.
  - injection D as <-. now apply any_magnitude_gt_raises in A1.
Qed.

Lemma determine_column_type_bigint (src : Sqlite) (t c column_type : string) :
  snd (determine_column_type src t c column_type) = Ok "BIGINT" ->
  upper column_type = code_points "INTEGER".
Proof.
  unfold determine_column_type.
  destruct (points_eqb (upper column_type) (code_points "INTEGER")) eqn:U;
    [intros _; now apply points_eqb_eq |].
  cbn [negb snd]. intros D. injection D as D. exfalso. revert D.
  rewrite convert_type_as_specified. unfold mapDeclaredType_spec.
  repeat match goal with
         | |- context [if ?b then _ else _] => destruct b
         end; discriminate.
Qed.

Lemma determine_column_type_raises (src : Sqlite) (t c column_type : string)
    (e : exn) :
  snd (determine_column_type src t c column_type) = Raise e ->
  upper column_type = code_points "INTEGER"
  /\ (select_column src t c = Raise e
      \/ exists fetched, select_column src t c = Ok fetched
                         /\ resolve_width fetched = Raise TypeError
                         /\ e = TypeError).
Proof.
  unfold determine_column_type.
  destruct (points_eqb (upper column_type) (code_points "INTEGER")) eqn:U;
    cbn [negb snd]; [| discriminate].
  intros D. split; [now apply points_eqb_eq |].
  destruct (select_column src t c) as [fetched | e'].
  - right. exists fetched.
    pose proof (resolve_width_raises _ _ D) as ->. now repeat split.
  - left. now injection D as ->.
Qed.

(** X6.  [determine_column_type] gives one of the seven target types or
    raises; BIGINT comes only from a column declared INTEGER, and only
    such a column can raise: with the exception its sampling query
    raised, or with [TypeError] when the width inference on the values
    read raises it. *)
Theorem determine_column_type_outcomes (src : Sqlite)
    (t c column_type : string) :
  match snd (determine_column_type src t c column_type) with
  | Ok resolved =>
      In resolved ["INTEGER"; "BIGINT"; "NUMERIC"; "TEXT"; "BYTEA";
                   "DOUBLE PRECISION"; "BOOLEAN"]
      /\ (resolved = "BIGINT" -> upper column_type = code_points "INTEGER")
  | Raise e =>
      upper column_type = code_points "INTEGER"
      /\ (select_column src t c = Raise e
          \/ exists fetched, select_column src t c = Ok fetched
                             /\ resolve_width fetched = Raise TypeError
                             /\ e = TypeError)
  end.
Proof.
  destruct (snd (determine_column_type src t c column_type))
    as [resolved | e] eqn:D.
  - split; [now apply (determine_column_type_names src t c column_type) |].
    intros ->. now apply (determine_column_type_bigint src t c).
  - now apply (determine_column_type_raises src t c).
Qed.

(** ** The statement builder *)

Lemma rstrip_keeps_clean_prefix (a x : string) :
  ends_clean a = true ->
  exists b, rstrip comma_or_space (a +++ x) = a +++ b.
Proof.
  induction a as [| c a IH]; [discriminate |].
  destruct a as [| c' a].
  - unfold ends_clean; cbn [last_char String.append rstrip]. intros Hc.
    apply negb_true_iff in Hc. rewrite Hc.
    destruct (rstrip comma_or_space x) as [| y t];
      [now exists "" | now exists (String y t)].
  - intros H. destruct (IH H) as [b Hb]. exists b.
    cbn [String.append rstrip] in *. now rewrite Hb.
Qed.

Lemma add_columns_outcome (src : Sqlite) (table_name : string)
    (columns : list column) :
  forall query,
    match add_columns src table_name columns query with
    | Ok q => exists x, q = query +++ x
    | Raise e =>
        exists c, In c columns
                  /\ snd (determine_column_type src table_name
                            (col_name c) (col_type c)) = Raise e
    end.
Proof.
  induction columns as [| c rest IH]; intros query; cbn [add_columns].
  - exists "". now rewrite append_empty_r.
  - destruct (snd (determine_column_type src table_name (col_name c)
                     (col_type c))) as [ty | e] eqn:D.
    + specialize (IH (query +++ column_clause ty c +++ ", ")).
      destruct (add_columns src table_name rest _) as [q | e].
      * destruct IH as [x ->]. eexists. now rewrite append_assoc.
      * destruct IH as (c' & Hin & H). exists c'. split; [now right | exact H].
    + exists c. split; [now left | exact D].
Qed.

Section Uniques.

Context {A : Type} `{JoinItem A}.

Lemma add_unique_constraints_outcome
    (unique_constraints : list (string * list A)) :
  forall query,
    match add_unique_constraints unique_constraints query with
    | Ok q => exists x, q = query +++ x
    | Raise e =>
        e = TypeError
        /\ exists u, In u unique_constraints /\ strs (snd u) = None
    end.
Proof.
  induction unique_constraints as [| [index_name keys] rest IH];
    intros query; cbn [add_unique_constraints].
  - exists "". now rewrite append_empty_r.
  - destruct (strs keys) as [names |] eqn:S.
    + specialize (IH (query +++ unique_clause (index_name, names) +++ ", ")).
      destruct (add_unique_constraints rest _) as [q | e].
      * destruct IH as [x ->]. eexists. now rewrite append_assoc.
      * destruct IH as (-> & u & Hin & Hu). split; [reflexivity |].
        exists u. split; [now right | exact Hu].
    + split; [reflexivity |]. exists (index_name, keys).
      split; [now left | exact S].
Qed.

End Uniques.

(** X7.  [create_table_query] either gives a statement that begins with
    [CREATE TABLE IF NOT EXISTS <table> (] and ends with [);], whatever
    the names and default literals are, or raises.  It raises what the
    type inference of a column declared INTEGER raised, or [TypeError]
    on a unique index one of whose keys has no name. *)
Theorem create_table_query_outcomes (src : Sqlite) (table_name : string)
    (columns : list column) (additional_columns : additional_columns_t)
    (unique_constraints : list (string * list (option string))) :
  match create_table_query src table_name columns additional_columns
                           unique_constraints with
  | Ok q =>
      exists body,
        q = "CREATE TABLE IF NOT EXISTS " +++ table_name +++ " ("
            +++ body +++ ");"
  | Raise e =>
      (exists c, In c columns
                 /\ upper (col_type c) = code_points "INTEGER"
                 /\ snd (determine_column_type src table_name
                           (col_name c) (col_type c)) = Raise e)
      \/ (e = TypeError
          /\ exists index_name keys,
               In (index_name, keys) unique_constraints /\ In None keys)
  end.
Proof.
  unfold create_table_query.
  pose proof (add_columns_outcome src table_name columns
                ("CREATE TABLE IF NOT EXISTS " +++ table_name +++ " ("))
    as A.
  destruct (add_columns src table_name columns _) as [q | e].
  - destruct A as [x ->]. rewrite fold_left_trailing.
    match goal with
    | |- context [add_unique_constraints _ ?q0] =>
        pose proof (add_unique_constraints_outcome unique_constraints q0) as U;
        destruct (add_unique_constraints unique_constraints q0) as [q | e]
    end.
    + destruct U as [y ->]. rewrite !append_assoc.
      rewrite <- (append_assoc "CREATE TABLE IF NOT EXISTS " table_name).
      rewrite <- (append_assoc _ " (").
      destruct (rstrip_keeps_clean_prefix
                  (("CREATE TABLE IF NOT EXISTS " +++ table_name) +++ " (")
                  (x +++ trailing (map extra_clause additional_columns)
                     +++ y))
        as [b Hb]; [now apply ends_clean_append |].
      rewrite Hb. exists b. now rewrite !append_assoc.
    + destruct U as (-> & [index_name keys] & Hin & Hu). right.
      split; [reflexivity |]. exists index_name, keys.
      split; [exact Hin |]. cbn [snd] in Hu. clear -Hu.
      induction keys as [| [name |] keys IH]; cbn [strs] in Hu.
      * discriminate.
      * right. apply IH. unfold as_str, optional_str_item in Hu.
        destruct (strs keys); [discriminate | reflexivity].
      * now left.
  - left. destruct A as (c & Hin & D).
    destruct (determine_column_type_raises src table_name (col_name c)
                (col_type c) e D) as [U _].
    now exists c.
Qed.

(** ** Row coercion *)

Section Rows.

Variable rt : Py.Runtime.

Lemma length_set_nth {A} (l : list A) (j : nat) (v : A) :
  List.length (set_nth j v l) = List.length l.
Proof.
  revert j; induction l as [| x l IH]; intros [| j]; cbn; auto.
Qed.

Lemma set_nth_same {A} (l : list A) (j : nat) (v : A) :
  nth_error l j = Some v -> set_nth j v l = l.
Proof.
  revert j; induction l as [| x l IH]; intros [| j]; cbn; try discriminate.
  - now intros [= ->].
  - intros H. now rewrite IH.
Qed.

Lemma coerce_columns_length (columns : list column) :
  forall j row out,
    coerce_columns rt j columns row = Ok out ->
    List.length out = List.length row
    /\ (columns <> [] ->
        (j + List.length columns <= List.length row)%nat).
Proof.
  induction columns as [| col rest IH]; intros j row out H.
  - injection H as <-. split; [reflexivity | congruence].
  - cbn [coerce_columns] in H.
    destruct (nth_error row j) as [v |] eqn:Hj; [| discriminate].
    assert (Hlt : (j < List.length row)%nat)
      by (apply nth_error_Some; congruence).
    assert (Hrec : exists row',
               List.length row' = List.length row
               /\ coerce_columns rt (S j) rest row' = Ok out).
    { destruct v;
        try (exists row; split; [reflexivity | exact H]);
        (destruct (coerce_value rt _ _) as [v' |]; [| discriminate];
         exists (set_nth j v' row); split;
         [apply length_set_nth | exact H]). }
    destruct Hrec as (row' & Hlen & Hrun).
    destruct (IH _ _ _ Hrun) as [Hout Hle]. rewrite Hlen in *.
    split; [exact Hout | intros _].
    destruct rest as [| col' rest']; [cbn; lia |].
    specialize (Hle ltac:(discriminate)). cbn [List.length] in *. lia.
Qed.

Lemma coerce_row_lengths (columns : list column)
    (additional_columns : additional_columns_t) (row out : list value) :
  coerce_row rt columns additional_columns row = Ok out ->
  (List.length columns <= List.length row)%nat
  /\ List.length out
     = (List.length row + List.length additional_columns)%nat
  /\ skipn (List.length row) out = defaults_of additional_columns.
Proof.
  intros H. unfold coerce_row in H.
  destruct (coerce_columns rt 0 columns (map none_literal row))
    as [native |] eqn:C; [| discriminate].
  injection H as <-.
  destruct (coerce_columns_length _ _ _ _ C) as [Hlen Hle].
  rewrite length_map in *. repeat split.
  - destruct columns; [cbn; lia | apply Hle; discriminate].
  - unfold defaults_of. now rewrite length_app, length_map, Hlen.
  - rewrite <- Hlen, skipn_app, skipn_all, Nat.sub_diag. reflexivity.
Qed.

(** X8.  The configured extra columns take no part in the coercion of a
    row: the values handed to the INSERT are the coerced fetched row
    followed by the configured defaults.  When a row coerces, it is at
    least as long as the column list and the result has one value per
    field of the row plus one per extra column; a row shorter than the
    column list always raises. *)
Theorem coerce_row_shape (columns : list column)
    (additional_columns : additional_columns_t) (row : list value) :
  coerce_row rt columns additional_columns row
  = res_map (fun native => native ++ defaults_of additional_columns)
            (coerce_row rt columns [] row)
  /\ (forall out,
        coerce_row rt columns additional_columns row = Ok out ->
        (List.length columns <= List.length row)%nat
        /\ List.length out
           = (List.length row + List.length additional_columns)%nat
        /\ skipn (List.length row) out = defaults_of additional_columns)
  /\ ((List.length row < List.length columns)%nat ->
      exists e, coerce_row rt columns additional_columns row = Raise e).
Proof.
  split; [| split; [apply coerce_row_lengths |]].
  - unfold coerce_row.
    destruct (coerce_columns rt 0 columns (map none_literal row));
      cbn [res_map map]; [now rewrite app_nil_r | reflexivity].
  - intros Hshort.
    destruct (coerce_row rt columns additional_columns row) as [out | e]
      eqn:C; [| now exists e].
    destruct (coerce_row_lengths _ _ _ _ C) as [Hle _]. lia.
Qed.

(** X9.  For a row with one field per column, the INSERT statement has
    as many placeholders as column names, and the coerced row has as many
    values. *)
Theorem insert_values_fill_the_placeholders (table_name : string)
    (columns : list column) (additional_columns : additional_columns_t)
    (row out : list value) :
  List.length row = List.length columns ->
  coerce_row rt columns additional_columns row = Ok out ->
  List.length out = List.length (insert_columns columns additional_columns)
  /\ insert_query table_name columns additional_columns
     = "INSERT INTO " +++ table_name +++ " ("
       +++ join ", " (insert_columns columns additional_columns)
       +++ ") VALUES (" +++ join ", " (repeat "%s" (List.length out))
       +++ ")".
Proof.
  intros Hlen H.
  destruct (coerce_row_lengths _ _ _ _ H) as (_ & Hout & _).
  split.
  - unfold insert_columns. rewrite length_app, !length_map. lia.
  - unfold insert_query. now rewrite Hout, Hlen.
Qed.

(** X10.  Coercion is stable: a value that came out of the coercion to
    a type goes through the coercion to that type unchanged. *)
Theorem coerce_value_is_idempotent (col_type : string) (v v' : value) :
  coerce_value rt col_type v = Ok v' ->
  coerce_value rt col_type v' = Ok v'.
Proof.
  unfold coerce_value.
  destruct (col_type =? "BOOLEAN")%string.
  { destruct v as [| b | n | f | s | b]; cbn [coerce_boolean];
      try discriminate.
    - now intros [= <-].
    - now intros [= <-].
    - destruct (Py.isdigit s) eqn:D.
      + destruct (Py.int_of_text s); cbn; [now intros [= <-] | discriminate].
      + destruct (existsb _ _) eqn:E.
        * destruct (lookup _ _); [now intros [= <-] | discriminate].
        * intros [= <-]. cbn [coerce_boolean]. now rewrite D, E.
    - destruct (Py.bytes_isdigit b) eqn:D.
      + destruct (Py.int_of_bytes b); cbn; [now intros [= <-] | discriminate].
      + intros [= <-]. cbn [coerce_boolean]. now rewrite D. }
  destruct (col_type =? "TEXT")%string.
  { destruct (Py.str rt v); cbn; [now intros [= <-] | discriminate]. }
  destruct (existsb _ _).
  { destruct (Py.int v); cbn; [now intros [= <-] | discriminate]. }
  destruct (col_type =? "DOUBLE PRECISION")%string.
  { destruct (Py.float rt v); cbn; [now intros [= <-] | discriminate]. }
  now intros [= <-].
Qed.

Lemma already_typed_stays (pg_type : string) (v : value) :
  In pg_type ["INTEGER"; "TEXT"; "BYTEA"; "DOUBLE PRECISION"; "NUMERIC";
              "BOOLEAN"] ->
  already_typed pg_type v = true ->
  none_literal v = v
  /\ (is_none v = false -> coerce_value rt pg_type v = Ok v).
Proof.
  intros Hin Hv.
  assert (N : none_literal v = v).
  { destruct v as [| | | | s |]; try reflexivity. cbn in Hv |- *.
    now destruct (s =? "None")%string. }
  split; [exact N | intros Hn].
  cbn [In] in Hin.
  repeat match goal with H : _ \/ _ |- _ => destruct H as [H | H] end;
    try contradiction; subst pg_type;
    destruct v; try discriminate Hn; try discriminate Hv; try reflexivity;
    cbn in Hv; rewrite ?andb_false_r in Hv; discriminate Hv.
Qed.

Lemma coerce_columns_typed (columns : list column) :
  forall (pre row : list value),
    Forall2 (fun c v => already_typed (convert_type (col_type c)) v = true)
            columns row ->
    coerce_columns rt (List.length pre) columns (pre ++ row) = Ok (pre ++ row).
Proof.
  induction columns as [| col rest IH]; intros pre row F; [reflexivity |].
  inversion F as [| c v cs vs Hv Hrest]; subst.
  cbn [coerce_columns].
  rewrite nth_error_app2, Nat.sub_diag by lia. cbn [nth_error].
  assert (Hnext : coerce_columns rt (S (List.length pre)) rest (pre ++ v :: vs)
                  = Ok (pre ++ v :: vs)).
  { specialize (IH (pre ++ [v]) vs Hrest).
    rewrite length_app, <- app_assoc in IH. cbn [List.length app] in IH.
    now rewrite Nat.add_1_r in IH. }
  assert (Hty : In (convert_type (col_type col))
                  ["INTEGER"; "TEXT"; "BYTEA"; "DOUBLE PRECISION"; "NUMERIC";
                   "BOOLEAN"]).
  { rewrite convert_type_as_specified. unfold mapDeclaredType_spec.
    repeat match goal with
           | |- context [if ?b then _ else _] => destruct b
           end; cbn [In]; tauto. }
  destruct (already_typed_stays _ _ Hty Hv) as [_ Hsame].
  destruct v; try exact Hnext;
    (rewrite Hsame by reflexivity;
     rewrite set_nth_same;
     [exact Hnext | now rewrite nth_error_app2, Nat.sub_diag by lia]).
Qed.

(** X11.  A row whose every field already has the type of its column
    (an integer under INTEGER or NUMERIC, a text other than [None] under
    TEXT, a float under DOUBLE PRECISION, a boolean under BOOLEAN,
    anything but the text [None] under BYTEA) or is NULL coerces to
    itself, followed by the configured defaults: the copy changes no
    value that needs no change. *)
Theorem typed_rows_pass_unchanged (columns : list column)
    (additional_columns : additional_columns_t) (row : list value) :
  Forall2 (fun c v => already_typed (convert_type (col_type c)) v = true)
          columns row ->
  coerce_row rt columns additional_columns row
  = Ok (row ++ defaults_of additional_columns).
Proof.
  intros F. unfold coerce_row.
  assert (N : map none_literal row = row).
  { clear -F rt. induction F as [| c v cs vs Hv _ IH]; [reflexivity |].
    cbn [map]. rewrite IH. f_equal.
    destruct v as [| | | | s |]; try reflexivity. cbn in Hv |- *.
    now destruct (s =? "None")%string. }
  rewrite N.
  pose proof (coerce_columns_typed columns [] row F) as C.
  cbn [List.length app] in C. now rewrite C.
Qed.

End Rows.

Lemma insert_values_witness :
  List.length [VInt 1; VText "a"; VInt 1] = List.length people_columns
  /\ coerce_row example_runtime people_columns legacy_column
                [VInt 1; VText "a"; VInt 1]
     = Ok [VInt 1; VText "a"; VBool true; VText "legacy"]
  /\ List.length [VInt 1; VText "a"; VBool true; VText "legacy"]
     = List.length (insert_columns people_columns legacy_column).
Proof.
  split; [reflexivity | split; [reflexivity |]].
  apply (insert_values_fill_the_placeholders example_runtime "people"
           people_columns legacy_column [VInt 1; VText "a"; VInt 1]);
    reflexivity.
Defined.

Lemma coerce_value_idempotent_witness :
  coerce_value example_runtime "BOOLEAN" (VText "TRUE") = Ok (VBool true)
  /\ coerce_value example_runtime "BOOLEAN" (VBool true) = Ok (VBool true).
Proof.
  split; [reflexivity |].
  apply (coerce_value_is_idempotent example_runtime "BOOLEAN" (VText "TRUE")).
  reflexivity.
Defined.

Lemma typed_rows_witness :
  Forall2 (fun c v => already_typed (convert_type (col_type c)) v = true)
          people_columns [VInt 1; VText "a"; VBool true]
  /\ coerce_row example_runtime people_columns legacy_column
                [VInt 1; VText "a"; VBool true]
     = Ok [VInt 1; VText "a"; VBool true; VText "legacy"].
Proof.
  assert (F : Forall2
                (fun c v => already_typed (convert_type (col_type c)) v = true)
                people_columns [VInt 1; VText "a"; VBool true])
    by (repeat constructor).
  split; [exact F |].
  exact (typed_rows_pass_unchanged example_runtime people_columns
           legacy_column [VInt 1; VText "a"; VBool true] F).
Defined.

(** ** The copy of a table *)

Lemma copy_events_app (coerced : list value -> list value) (query : string)
    (a b : list (list value)) :
  forall j,
    copy_events coerced query j (a ++ b)
    = copy_events coerced query j a
      ++ copy_events coerced query (j + Z.of_nat (List.length a)) b.
Proof.
  induction a as [| row a IH]; intros j.
  - cbn. now rewrite Z.add_0_r.
  - cbn [app copy_events List.length]. rewrite IH, Nat2Z.inj_succ.
    replace (j + 1 + Z.of_nat (List.length a))
      with (j + Z.succ (Z.of_nat (List.length a))) by lia.
    now rewrite <- !app_assoc.
Qed.

Lemma commit_in_window (coerced : list value -> list value) (query : string)
    (window : list (list value)) (j : Z) :
  0 <= j -> 16384 <= Z.of_nat (List.length window) ->
  In Commit (copy_events coerced query j window).
Proof.
  intros Hj Hlen.
  pose proof (commits_from coerced query window j Hj) as C.
  assert (P : 0 < Z.of_nat (List.length
                (filter is_commit (copy_events coerced query j window)))).
  { rewrite C. revert Hlen.
    generalize (Z.of_nat (List.length window)). intros n Hn.
    Z.div_mod_to_equations. lia. }
  destruct (filter is_commit (copy_events coerced query j window))
    as [| ev l] eqn:F; [cbn in P; lia |].
  assert (Hin : In ev (filter is_commit (copy_events coerced query j window)))
    by (rewrite F; now left).
  apply filter_In in Hin as [Hin Hc]. now destruct ev.
Qed.

Lemma inserts_of_window (coerced : list value -> list value)
    (query : string) (window : list (list value)) :
  forall j,
    filter (fun ev => negb (is_commit ev)) (copy_events coerced query j window)
    = map (fun row => Execute query (Some (coerced row))) window.
Proof.
  induction window as [| row w IH]; intros j; [reflexivity |].
  cbn [copy_events filter is_commit negb map].
  rewrite filter_app, IH. now destruct (j mod 16384 =? 0).
Qed.

(** X12.  While nothing fails, no 16384 rows in a row go by without a
    COMMIT.  Cut the rows of a table into those before a stretch, the
    stretch and those after it: the loop run on the rows before the
    stretch, then on the stretch from the row number it has reached,
    then on the rest, is the loop run on the whole table; the calls it
    makes for the stretch are one INSERT per row of the stretch, in
    order, with a COMMIT after each row whose number is a multiple of
    16384; and when the stretch has at least 16384 rows there is a
    COMMIT among them. *)
Theorem every_batch_is_committed (rt : Py.Runtime)
    (accepts : list event -> event -> bool) (query : string)
    (columns : list column) (additional_columns : additional_columns_t)
    (coerced : list value -> list value)
    (before window after : list (list value)) (h : list event) :
  (forall h ev, accepts h ev = true) ->
  (forall row, In row (before ++ window ++ after) ->
     coerce_row rt columns additional_columns row = Ok (coerced row)) ->
  16384 <= Z.of_nat (List.length window) ->
  let loop := insert_rows rt accepts query columns additional_columns in
  let j := Z.of_nat (List.length before) in
  exists h1 calls,
    loop 0 before h = (h1, inl tt)
    /\ loop j window h1 = (h1 ++ calls, inl tt)
    /\ loop 0 (before ++ window ++ after) h
       = loop (j + Z.of_nat (List.length window)) after (h1 ++ calls)
    /\ calls = copy_events coerced query j window
    /\ filter (fun ev => negb (is_commit ev)) calls
       = map (fun row => Execute query (Some (coerced row))) window
    /\ In Commit calls.
Proof.
  intros Hacc Hrows Hlen loop j.
  assert (R : forall rows k h0,
             (forall row, In row rows -> In row (before ++ window ++ after)) ->
             loop k rows h0 = (h0 ++ copy_events coerced query k rows, inl tt)).
  { intros rows k h0 Hin.
    apply (insert_rows_accepting rt accepts columns additional_columns
             Hacc coerced query rows).
    intros row Hrow. apply Hrows, Hin, Hrow. }
  exists (h ++ copy_events coerced query 0 before),
    (copy_events coerced query j window).
  split; [| split; [| split; [| split; [| split]]]].
  - apply R. intros row Hrow. apply in_or_app. now left.
  - apply R. intros row Hrow. apply in_or_app. right.
    apply in_or_app. now left.
  - rewrite !R.
    + rewrite !copy_events_app, Z.add_0_l. fold j.
      now rewrite <- !app_assoc.
    + intros row Hrow. apply in_or_app. right. apply in_or_app. now right.
    + auto.
  - reflexivity.
  - apply inserts_of_window.
  - apply commit_in_window; [unfold j; lia | exact Hlen].
Qed.

Lemma every_batch_witness :
  (forall h ev, accept_all h ev = true)
  /\ (forall row,
        In row ([[VInt 0; VText "z"; VInt 0]]
                  ++ repeat [VInt 1; VText "a"; VInt 1] (Z.to_nat 16384)
                  ++ []) ->
        coerce_row example_runtime people_columns [] row
        = Ok (coerced_or_empty example_runtime people_columns [] row))
  /\ 16384 <= Z.of_nat (List.length
                          (repeat [VInt 1; VText "a"; VInt 1]
                                  (Z.to_nat 16384)))
  /\ exists h1 calls,
       insert_rows example_runtime accept_all "INSERT" people_columns [] 0
                   [[VInt 0; VText "z"; VInt 0]] []
       = (h1, inl tt)
       /\ insert_rows example_runtime accept_all "INSERT" people_columns []
                      (Z.of_nat (List.length [[VInt 0; VText "z"; VInt 0]]))
                      (repeat [VInt 1; VText "a"; VInt 1] (Z.to_nat 16384)) h1
          = (h1 ++ calls, inl tt)
       /\ In Commit calls.
Proof.
  assert (H1 : forall h ev, accept_all h ev = true) by reflexivity.
  assert (H2 : forall row,
             In row ([[VInt 0; VText "z"; VInt 0]]
                       ++ repeat [VInt 1; VText "a"; VInt 1] (Z.to_nat 16384)
                       ++ []) ->
             coerce_row example_runtime people_columns [] row
             = Ok (coerced_or_empty example_runtime people_columns [] row)).
  { intros row Hin.
    apply in_app_or in Hin as [[<- | []] | Hin]; [reflexivity |].
    apply in_app_or in Hin as [Hin | []].
    apply repeat_spec in Hin. subst row. reflexivity. }
  assert (H3 : 16384 <= Z.of_nat (List.length
                          (repeat [VInt 1; VText "a"; VInt 1]
                                  (Z.to_nat 16384)))).
  { rewrite repeat_length, Z2Nat.id; lia. }
  split; [exact H1 | split; [exact H2 | split; [exact H3 |]]].
  destruct (every_batch_is_committed example_runtime accept_all "INSERT"
              people_columns []
              (coerced_or_empty example_runtime people_columns [])
              [[VInt 0; VText "z"; VInt 0]]
              (repeat [VInt 1; VText "a"; VInt 1] (Z.to_nat 16384)) [] []
              H1 H2 H3)
    as (h1 & calls & E1 & E2 & _ & _ & _ & C).
  exists h1, calls. split; [exact E1 | split; [exact E2 | exact C]].
Defined.

(** ** The run as a whole *)

Section Calls.

Variable rt : Py.Runtime.
Variable accepts : list event -> event -> bool.
Variable B : Type.
Variable f : event -> list B.

Lemma adds_none_ret {A} (a : A) : adds_none f (ret a).
Proof. intros h. reflexivity. Qed.

Lemma adds_none_lift {A} (r : res A) : adds_none f (lift r).
Proof. destruct r; intros h; reflexivity. Qed.

Lemma adds_none_exit {A} (code : Z) : adds_none f (@exit A code).
Proof. intros h. reflexivity. Qed.

Lemma adds_none_call (ev : event) :
  f ev = [] -> adds_none f (call accepts ev).
Proof.
  intros Hev h. unfold call; cbn [fst].
  now rewrite flat_map_app; cbn [flat_map]; rewrite Hev, !app_nil_r.
Qed.

Lemma adds_none_bind {A C} (m : M A) (k : A -> M C) :
  adds_none f m -> (forall a, adds_none f (k a)) -> adds_none f (bind m k).
Proof.
  intros Hm Hk h. unfold bind. specialize (Hm h).
  destruct (m h) as [h' [a | s]]; cbn [fst] in *; [| exact Hm].
  now rewrite Hk.
Qed.

Lemma adds_none_try {A} (body : M A) (handler : exn -> M A) :
  adds_none f body -> (forall e, adds_none f (handler e)) ->
  adds_none f (try_except body handler).
Proof.
  intros Hb Hh h. unfold try_except. specialize (Hb h).
  destruct (body h) as [h' [a | [code | e]]]; cbn [fst] in *;
    try exact Hb. now rewrite Hh.
Qed.

Lemma adds_none_report (row : list value) (e : exn) :
  adds_none f (report rt row e).
Proof.
  intros h. unfold report. now destruct (Py.print_error rt h row e).
Qed.

Hypothesis f_insert : forall q vars, f (Execute q (Some vars)) = [].
Hypothesis f_commit : f Commit = [].
Hypothesis f_rollback : f Rollback = [].

Lemma adds_none_insert_data (table_name : string) (columns : list column)
    (rows : list (list value)) (additional_columns : additional_columns_t) :
  adds_none f (insert_data rt accepts table_name columns rows
                           additional_columns).
Proof.
  unfold insert_data. apply adds_none_bind;
    [| intros _; now apply adds_none_call].
  generalize 0.
  induction rows as [| row rest IH]; intros j; [apply adds_none_ret |].
  cbn [insert_rows]. apply adds_none_bind; [| intros _; apply IH].
  apply adds_none_try.
  - unfold insert_row. apply adds_none_bind; [apply adds_none_lift |].
    intros row'. apply adds_none_bind; [now apply adds_none_call |].
    intros _. destruct (j mod 16384 =? 0);
      [now apply adds_none_call | apply adds_none_ret].
  - intros e. unfold on_error.
    apply adds_none_bind; [apply adds_none_report |].
    intros _. apply adds_none_bind; [now apply adds_none_call |].
    intros _. apply adds_none_exit.
Qed.

End Calls.

Section Statements.

Variable rt : Py.Runtime.
Variable accepts : list event -> event -> bool.
Variable src : Sqlite.
Variable additional_columns : additional_columns_t.

Lemma plan_tables_statements (tables : list string) :
  forall columns0 queries0 columns queries,
    plan_tables src additional_columns tables columns0 queries0
    = Ok (columns, queries) ->
    exists planned,
      queries = queries0 ++ planned
      /\ map Ok planned
         = map (planned_statement src additional_columns) tables.
Proof.
  induction tables as [| t rest IH]; intros c0 q0 cols qs H.
  - injection H as _ <-. exists []. now rewrite app_nil_r.
  - cbn [plan_tables] in H.
    fold (planned_statement src additional_columns t) in H.
    destruct (planned_statement src additional_columns t) as [q | e] eqn:P;
      [| discriminate].
    destruct (IH _ _ _ _ H) as (planned & -> & Hp).
    exists (q :: planned). split; [now rewrite <- app_assoc |].
    cbn [map]. now rewrite Hp, P.
Qed.

Lemma copy_tables_cons (columns : list column) (t q : string)
    (rest : list (string * string)) (h : list event) :
  copy_tables rt accepts src additional_columns columns ((t, q) :: rest) h
  = if accepts h (Execute q None)
    then match copy_rows_of rt accepts src additional_columns columns t
                            (h ++ [Execute q None]) with
         | (h1, inl _) =>
             copy_tables rt accepts src additional_columns columns rest h1
         | (h1, inr s) => (h1, inr s)
         end
    else (h ++ [Execute q None], inr (Uncaught DatabaseError)).
Proof.
  cbn [copy_tables]. unfold bind, call, copy_rows_of, ret.
  destruct (accepts h (Execute q None)); [| reflexivity].
  destruct (select_all src t); reflexivity.
Qed.

Lemma copy_rows_of_statements (columns : list column) (t : string)
    (h : list event) :
  ddl_of (fst (copy_rows_of rt accepts src additional_columns columns t h))
  = ddl_of h.
Proof.
  unfold copy_rows_of. destruct (select_all src t) as [| row rows];
    [reflexivity |].
  now apply (adds_none_insert_data rt accepts _ statement_of).
Qed.

(** The statements run by the copy loop are, in order, those planned for
    the tables it got to; all of them when it returns. *)
Lemma copy_tables_statements (columns : list column)
    (todo : list (string * string)) :
  forall h,
    exists k,
      ddl_of (fst (copy_tables rt accepts src additional_columns columns
                               todo h))
      = ddl_of h ++ firstn k (map snd todo)
      /\ (snd (copy_tables rt accepts src additional_columns columns todo h)
          = inl tt -> firstn k (map snd todo) = map snd todo).
Proof.
  induction todo as [| [t q] rest IH]; intros h.
  - exists O. cbn. now rewrite app_nil_r.
  - rewrite copy_tables_cons.
    assert (Q : ddl_of (h ++ [Execute q None]) = ddl_of h ++ [q])
      by (unfold ddl_of; now rewrite flat_map_app).
    destruct (accepts h (Execute q None)).
    + pose proof (copy_rows_of_statements columns t (h ++ [Execute q None]))
        as D.
      destruct (copy_rows_of _ _ _ _ _ _ _) as [h1 [[] | s]];
        cbn [fst snd] in *.
      * destruct (IH h1) as (k & Hk & Hall). exists (S k).
        rewrite Hk, D, Q, <- app_assoc. split; [reflexivity |].
        intros R. cbn [map firstn]. now rewrite (Hall R).
      * exists 1%nat. split; [now rewrite D, Q | discriminate].
    + exists 1%nat. cbn [fst snd]. split; [exact Q | discriminate].
Qed.

End Statements.

Lemma map_snd_combine_same {A B} (l1 : list A) (l2 : list B) :
  List.length l1 = List.length l2 -> map snd (combine l1 l2) = l2.
Proof.
  revert l2; induction l1 as [| a l1 IH]; intros [| b l2] H;
    cbn in *; try congruence. f_equal. apply IH. congruence.
Qed.

Lemma ddl_of_snoc_close (trace : list event) :
  ddl_of (trace ++ [Close]) = ddl_of trace.
Proof. unfold ddl_of. rewrite flat_map_app. cbn. now rewrite app_nil_r. Qed.

(** X13.  Every statement is built before the target is touched: when
    the planning raises, no call has been made.  Each table's statement
    is built from that table's own schema and unique indexes; the CREATE
    TABLE statements the run executes are the planned ones, in the order
    of the tables, up to the table where the run stopped: none when the
    user declines, all of them when the run returns. *)
Theorem statements_follow_the_plan (rt : Py.Runtime)
    (accepts : list event -> event -> bool) (src : Sqlite)
    (additional_columns : additional_columns_t) (answer : string) :
  match plan_tables src additional_columns (get_tables src) [] [] with
  | Raise e =>
      run rt accepts src additional_columns answer = ([], inr (Uncaught e))
  | Ok (columns, queries) =>
      let trace := fst (run rt accepts src additional_columns answer) in
      map Ok queries
      = map (planned_statement src additional_columns) (get_tables src)
      /\ (exists k, ddl_of trace = firstn k queries)
      /\ (answer <> "y" -> ddl_of trace = [])
      /\ (answer = "y" ->
          snd (run rt accepts src additional_columns answer) = inl tt ->
          ddl_of trace = queries)
  end.
Proof.
  rewrite run_unfolded.
  destruct (plan_tables src additional_columns (get_tables src) [] [])
    as [[columns queries] | e] eqn:P; [| reflexivity].
  destruct (plan_tables_statements src additional_columns _ _ _ _ _ P)
    as (planned & E & Hp). cbn [app] in E. subst planned.
  assert (L : List.length (get_tables src) = List.length queries).
  { apply (f_equal (@List.length _)) in Hp. now rewrite !length_map in Hp. }
  pose proof (map_snd_combine_same _ _ L) as C.
  cbv zeta. split; [exact Hp |].
  destruct (String.eqb_spec answer "y") as [-> | Hno]; cbn [negb].
  - destruct (copy_tables_statements rt accepts src additional_columns
                columns (combine (get_tables src) queries) [])
      as (k & Hk & Hall).
    rewrite C in Hk, Hall. cbn [ddl_of flat_map app] in Hk.
    destruct (copy_tables _ _ _ _ _ _ _) as [h [[] | s]]; cbn [fst snd] in *.
    + rewrite ddl_of_snoc_close. split; [now exists k | split].
      * congruence.
      * intros _ _. now rewrite Hk, Hall.
    + split; [now exists k | split]; [congruence | discriminate].
  - cbn [fst snd]. split; [now exists O | split; [reflexivity |]].
    congruence.
Qed.

Section Closing.

Variable rt : Py.Runtime.
Variable accepts : list event -> event -> bool.
Variable src : Sqlite.
Variable additional_columns : additional_columns_t.

Lemma copy_tables_never_closes (columns : list column)
    (todo : list (string * string)) :
  adds_none closing
    (copy_tables rt accepts src additional_columns columns todo).
Proof.
  induction todo as [| [t q] rest IH]; intros h; [reflexivity |].
  rewrite copy_tables_cons.
  assert (Q : flat_map closing (h ++ [Execute q None]) = flat_map closing h)
    by (rewrite flat_map_app; cbn; now rewrite app_nil_r).
  destruct (accepts h (Execute q None)); [| exact Q].
  assert (D : flat_map closing
                (fst (copy_rows_of rt accepts src additional_columns columns
                                   t (h ++ [Execute q None])))
              = flat_map closing h).
  { unfold copy_rows_of. destruct (select_all src t); [exact Q |].
    rewrite <- Q.
    now apply (adds_none_insert_data rt accepts _ closing). }
  destruct (copy_rows_of _ _ _ _ _ _ _) as [h1 [[] | s]]; cbn [fst] in *;
    [| exact D].
  now rewrite IH.
Qed.

Lemma no_closing (trace : list event) :
  flat_map closing trace = [] -> ~ In Close trace.
Proof.
  induction trace as [| ev l IH]; [auto |].
  cbn [flat_map]. intros E [-> | Hin]; [discriminate |].
  apply IH; [| exact Hin]. now destruct (app_eq_nil _ _ E).
Qed.

(** X14.  The connection is closed exactly when the run returns: then
    closing is its last call and there is no other; a run that stops on
    an error, caught or not, never closes the connection. *)
Theorem connection_is_closed_on_return_only (answer : string) :
  let trace := fst (run rt accepts src additional_columns answer) in
  let r := snd (run rt accepts src additional_columns answer) in
  (r = inl tt ->
   exists calls, trace = calls ++ [Close] /\ ~ In Close calls)
  /\ (forall s, r = inr s -> ~ In Close trace).
Proof.
  cbv zeta. rewrite run_unfolded.
  destruct (plan_tables src additional_columns (get_tables src) [] [])
    as [[columns queries] | e]; cbn [fst snd].
  - destruct (negb (answer =? "y")%string); cbn [fst snd].
    + split; [intros _; now exists [] | discriminate].
    + pose proof (copy_tables_never_closes columns
                    (combine (get_tables src) queries) []) as N.
      destruct (copy_tables _ _ _ _ _ _ _) as [h [[] | s]];
        cbn [fst snd] in *; apply no_closing in N.
      * split; [intros _; now exists h | discriminate].
      * split; [discriminate | intros _ _; exact N].
  - split; [discriminate | intros _ _ []].
Qed.

Hypothesis accepts_all : forall h ev, accepts h ev = true.


End Closing.





(** ** The first row that fails *)

(** X17.  When a row does not coerce, the rows before it have been
    inserted, with their batch commits, and the handler writes the
    failing row, as the coercion left it, and the traceback to the
    console.  When the console wrote them, ROLLBACK is called and the
    process exits with status 1; when writing raises, that exception
    ends the run and no ROLLBACK is called.  Either way the failing row
    is not sent to the target and no row after it is looked at. *)
Theorem copy_stops_at_the_first_bad_row (rt : Py.Runtime)
    (accepts : list event -> event -> bool) (query : string)
    (columns : list column) (additional_columns : additional_columns_t)
    (coerced : list value -> list value)
    (good : list (list value)) (bad : list value) (rest : list (list value))
    (e : exn) (h : list event) :
  (forall h ev, accepts h ev = true) ->
  (forall row, In row good ->
     coerce_row rt columns additional_columns row = Ok (coerced row)) ->
  coerce_row rt columns additional_columns bad = Raise e ->
  let sent := h ++ copy_events coerced query 0 good in
  row_at_failure rt columns additional_columns bad
  = coerced_so_far rt 0 columns (map none_literal bad)
  /\ insert_rows rt accepts query columns additional_columns 0
                 (good ++ bad :: rest) h
     = match Py.print_error rt sent
               (row_at_failure rt columns additional_columns bad) e with
       | None => (sent ++ [Rollback], inr (SystemExit 1))
       | Some e' => (sent, inr (Uncaught e'))
       end.
Proof.
  intros Hacc Hgood Hbad sent. split.
  { unfold row_at_failure. now rewrite Hbad. }
  unfold sent. clear sent. generalize 0. revert h.
  induction good as [| row good IH]; intros h j.
  - cbn [app insert_rows copy_events]. rewrite app_nil_r.
    unfold bind at 1.
    rewrite (try_row_fails rt accepts _ _ h h e).
    + rewrite Hacc. now destruct (Py.print_error rt h _ e).
    + unfold insert_row, bind, lift, raise. now rewrite Hbad.
  - cbn [app insert_rows copy_events].
    unfold bind at 1, try_except, insert_row, bind, lift, ret, call.
    rewrite (Hgood row (or_introl eq_refl)), Hacc.
    destruct (j mod 16384 =? 0); rewrite ?Hacc;
      rewrite IH by (intros r Hr; apply Hgood; now right);
      cbn [app]; now rewrite <- !app_assoc.
Qed.

Lemma first_bad_row_witness :
  (forall h ev, accept_all h ev = true)
  /\ (forall row, In row notes_rows ->
        coerce_row example_runtime people_columns [] row
        = Ok (coerced_or_empty example_runtime people_columns [] row))
  /\ coerce_row example_runtime people_columns []
                [VText "seven"; VText "x"; VText "y"] = Raise ValueError
  /\ insert_rows example_runtime accept_all "INSERT" people_columns [] 0
                 (notes_rows ++ [VText "seven"; VText "x"; VText "y"]
                             :: people_rows) []
     = ([Execute "INSERT" (Some [VInt 7; VText "hello"; VBool true]);
         Commit; Rollback], inr (SystemExit 1)).
Proof.
  assert (H1 : forall h ev, accept_all h ev = true) by reflexivity.
  assert (H2 : forall row, In row notes_rows ->
             coerce_row example_runtime people_columns [] row
             = Ok (coerced_or_empty example_runtime people_columns [] row)).
  { intros row [<- | []]; reflexivity. }
  split; [exact H1 | split; [exact H2 | split; [reflexivity |]]].
  exact (proj2 (copy_stops_at_the_first_bad_row example_runtime accept_all
                  "INSERT" people_columns []
                  (coerced_or_empty example_runtime people_columns [])
                  notes_rows [VText "seven"; VText "x"; VText "y"]
                  people_rows ValueError [] H1 H2 eq_refl)).
Defined.

(** ** Digits under BOOLEAN *)

Ltac by_digit_cases c :=
  destruct c as [[] [] [] [] [] [] [] []]; intros H;
  try discriminate H; reflexivity.

Lemma digit_is_no_space (c : ascii) :
  is_ascii_digit c = true -> Py.is_space c = false.
Proof. by_digit_cases c. Qed.

Lemma digit_is_digit_char (c : ascii) :
  is_ascii_digit c = true -> Py.is_digit_char c = true.
Proof. by_digit_cases c. Qed.

Lemma digit_value_zero (c : ascii) :
  is_ascii_digit c = true -> (Py.digit_value c =? 0) = is_zero_char c.
Proof. by_digit_cases c. Qed.

Lemma digit_value_nonneg (c : ascii) :
  is_ascii_digit c = true -> (0 <=? Py.digit_value c) = true.
Proof. by_digit_cases c. Qed.

Lemma digit_starts_unsigned (c : ascii) (s : string) :
  is_ascii_digit c = true ->
  Py.signed_digits (String c s) = Py.digits 0 false (String c s).
Proof. by_digit_cases c. Qed.

Lemma rstrip_digits (s : string) :
  all_chars is_ascii_digit s = true -> rstrip Py.is_space s = s.
Proof.
  induction s as [| c s IH]; [reflexivity |].
  cbn [all_chars]. intros H. apply andb_true_iff in H as [Hc Hs].
  cbn [rstrip]. rewrite (IH Hs). destruct s; [| reflexivity].
  now rewrite (digit_is_no_space c Hc).
Qed.

Lemma digits_of_digits (s : string) :
  forall acc, 0 <= acc ->
    all_chars is_ascii_digit s = true ->
    exists n, Py.digits acc true s = Some n
              /\ 0 <= n
              /\ (n =? 0) = (acc =? 0) && all_chars is_zero_char s.
Proof.
  induction s as [| c s IH]; intros acc Hacc H.
  - exists acc. cbn. now rewrite andb_true_r.
  - cbn [all_chars] in H. apply andb_true_iff in H as [Hc Hs].
    pose proof (digit_value_nonneg c Hc) as Hd. apply Z.leb_le in Hd.
    destruct (IH (10 * acc + Py.digit_value c) ltac:(lia) Hs)
      as (n & Hn & Hpos & Hz).
    exists n. cbn [Py.digits all_chars]. rewrite Hc.
    split; [exact Hn | split; [exact Hpos |]].
    rewrite Hz, <- (digit_value_zero c Hc), andb_assoc. f_equal.
    destruct (Z.eqb_spec acc 0), (Z.eqb_spec (Py.digit_value c) 0),
      (Z.eqb_spec (10 * acc + Py.digit_value c) 0); cbn; try reflexivity; lia.
Qed.

Lemma count_digits_of_digits (s : string) :
  all_chars is_ascii_digit s = true ->
  Py.count_digits s = N.of_nat (String.length s).
Proof.
  induction s as [| c s IH]; [reflexivity |].
  cbn [all_chars Py.count_digits String.length]. intros H.
  apply andb_true_iff in H as [Hc Hs]. rewrite Hc, (IH Hs). lia.
Qed.

(** X18.  A text made of the digits 0 to 9, at most 4300 of them,
    always coerces to BOOLEAN: to false when every digit is 0, to true
    otherwise, leading zeros included.  With more than 4300 digits the
    conversion to an integer raises [ValueError]. *)
Theorem digit_text_to_boolean (s : string) :
  Py.nonempty_string s = true ->
  all_chars is_ascii_digit s = true ->
  coerce_boolean (VText s)
  = if (N.of_nat (String.length s) <=? 4300)%N
    then Ok (VBool (negb (all_chars is_zero_char s)))
    else Raise ValueError.
Proof.
  intros Hne Hd. unfold coerce_boolean.
  assert (D : Py.isdigit s = true).
  { unfold Py.isdigit. rewrite Hne. cbn [andb]. clear Hne.
    induction s as [| c s IH]; [reflexivity |].
    cbn [all_chars] in *. apply andb_true_iff in Hd as [Hc Hs].
    now rewrite (digit_is_digit_char c Hc), IH. }
  rewrite D. unfold Py.int_of_text, Py.strip. rewrite (rstrip_digits s Hd).
  assert (S : Py.lstrip Py.is_space s = s).
  { destruct s as [| c s]; [reflexivity |].
    cbn [all_chars] in Hd. apply andb_true_iff in Hd as [Hc _].
    cbn [Py.lstrip]. now rewrite (digit_is_no_space c Hc). }
  rewrite S. unfold Py.limited_digits, Py.max_str_digits.
  rewrite (count_digits_of_digits s Hd), N.ltb_antisym.
  destruct (N.of_nat (String.length s) <=? 4300)%N; cbn [negb];
    [| reflexivity].
  destruct s as [| c s]; [discriminate |].
  cbn [all_chars] in Hd. apply andb_true_iff in Hd as [Hc Hs].
  rewrite (digit_starts_unsigned c s Hc). cbn [Py.digits]. rewrite Hc.
  pose proof (digit_value_nonneg c Hc) as Hv. apply Z.leb_le in Hv.
  destruct (digits_of_digits s (10 * 0 + Py.digit_value c) ltac:(lia) Hs)
    as (n & Hn & _ & Hz).
  rewrite Hn. cbn [Py.of_option res_map all_chars]. unfold truthy.
  rewrite Hz, <- (digit_value_zero c Hc).
  now replace (10 * 0 + Py.digit_value c) with (Py.digit_value c) by lia.
Qed.

Lemma digit_text_witness :
  Py.nonempty_string "007" = true
  /\ all_chars is_ascii_digit "007" = true
  /\ coerce_boolean (VText "007") = Ok (VBool true).
Proof.
  split; [reflexivity | split; [reflexivity |]].
  exact (digit_text_to_boolean "007" eq_refl eq_refl).
Defined.
